(** * CheapFinder API: aggregation engine, rate limiter and Etsy OAuth helper

    A shallow embedding of [src/server.js] and [src/oauth_etsy.js].

    JavaScript numbers are IEEE-754 binary64 values and are modelled by
    Rocq's primitive [float]; integer-valued quantities that stay far below
    2^53 (request counters, millisecond clocks) are modelled by [Z].
    JavaScript strings are modelled by [string], one [ascii] per code unit
    (so the model covers strings whose code units are below 256). *)

From Stdlib Require Import ZArith Floats Ascii String List Lia Bool Strings.Byte.
From stdpp Require Import base option list strings gmap sorting.

#[local] Set Warnings "-inexact-float,-clear-no-such-hyp".
#[local] Open Scope Z_scope.

(** ** JavaScript values and built-ins used by the sources *)

Module JS.

(** The values that reach the numeric helpers: query-string parameters are
    strings or absent, listing fields are numbers, strings, [null] or absent. *)
Inductive jsval :=
  | JUndefined
  | JNull
  | JNumber (x : float)
  | JString (s : string).

(** [WhiteSpace] and [LineTerminator] code units below 256. *)
Definition isWhiteSpace (c : ascii) : bool :=
  let n := N_of_ascii c in
  ((9 <=? n) && (n <=? 13) || (n =? 32) || (n =? 160))%N.

Fixpoint trimStart (s : string) : string :=
  match s with
  | String c s' => if isWhiteSpace c then trimStart s' else s
  | EmptyString => EmptyString
  end.

Fixpoint trimEnd (s : string) : string :=
  match s with
  | EmptyString => EmptyString
  | String c s' =>
      match trimEnd s' with
      | EmptyString => if isWhiteSpace c then EmptyString else String c EmptyString
      | t => String c t
      end
  end.

(** [String.prototype.trim] *)
Definition trim (s : string) : string := trimEnd (trimStart s).

Definition lowerChar (c : ascii) : ascii :=
  let n := N_of_ascii c in
  if ((65 <=? n) && (n <=? 90) || (192 <=? n) && (n <=? 222) && negb (n =? 215))%N
  then ascii_of_N (n + 32) else c.

(** [String.prototype.toLowerCase] *)
Fixpoint toLowerCase (s : string) : string :=
  match s with
  | EmptyString => EmptyString
  | String c s' => String (lowerChar c) (toLowerCase s')
  end.

(** [String.prototype.includes] *)
Fixpoint includes (s needle : string) : bool :=
  String.prefix needle s ||
  match s with
  | EmptyString => false
  | String _ s' => includes s' needle
  end.

(** [String.prototype.split] with a one-character separator. *)
Fixpoint split (sep : ascii) (s : string) : list string :=
  match s with
  | EmptyString => [EmptyString]
  | String c s' =>
      if Ascii.eqb c sep then EmptyString :: split sep s'
      else match split sep s' with
           | h :: t => String c h :: t
           | [] => [String c EmptyString]
           end
  end.

Definition nonEmpty (s : string) : bool :=
  match s with EmptyString => false | _ => true end.

(** *** Numbers *)

Definition Number_isFinite (x : float) : bool := is_finite x.

(** [ToBoolean] on a number: [+0], [-0] and [NaN] are falsy. *)
Definition truthy (x : float) : bool := negb (is_zero x || is_nan x).

(** [a || b] on numbers. *)
Definition or_else (a b : float) : float := if truthy a then a else b.

(** The integer [n] as a number (round to nearest, ties to even). *)
Definition Z2float (n : Z) : float := SF2Prim (binary_normalize prec emax n 0 false).

(** [Math.round]: the nearest integer, ties towards +Infinity; the sign of
    a zero result is the sign of the argument. *)
Definition Math_round (x : float) : float :=
  match Prim2SF x with
  | S754_finite s m e =>
      if 0 <=? e then x
      else
        let k := - e in
        let sm := if s then Z.neg m else Z.pos m in
        let n := (2 * sm + 2 ^ k) / 2 ^ (k + 1) in
        if n =? 0 then (if s then PrimFloat.neg_zero else PrimFloat.zero) else Z2float n
  | _ => x
  end.

(** [Math.min] and [Math.max] with two arguments. *)
Definition Math_min (a b : float) : float :=
  if is_nan a || is_nan b then PrimFloat.nan
  else if (b <? a)%float then b
  else if (a <? b)%float then a
  else if get_sign a then a else b.

Definition Math_max (a b : float) : float :=
  if is_nan a || is_nan b then PrimFloat.nan
  else if (a <? b)%float then b
  else if (b <? a)%float then a
  else if get_sign a then b else a.

(** *** [StringToNumber]

    The [StringNumericLiteral] grammar: optional white space around an empty
    string, [Infinity], a signed decimal literal with optional fraction and
    exponent, or an unsigned binary, octal or hexadecimal integer.  The
    mathematical value is rounded to the nearest binary64 value. *)

Definition digitVal (radix : N) (c : ascii) : option N :=
  let n := N_of_ascii c in
  let v :=
    if ((48 <=? n) && (n <=? 57))%N then Some (n - 48)%N
    else if ((97 <=? n) && (n <=? 102))%N then Some (n - 87)%N
    else if ((65 <=? n) && (n <=? 70))%N then Some (n - 55)%N
    else None in
  match v with
  | Some d => if (d <? radix)%N then Some d else None
  | None => None
  end.

(** The longest run of digits at the head of [s]: the accumulated value,
    the number of digits read and the rest of the string. *)
Fixpoint readDigits (radix : N) (s : string) (acc cnt : N) : N * N * string :=
  match s with
  | String c s' =>
      match digitVal radix c with
      | Some d => readDigits radix s' (acc * radix + d)%N (cnt + 1)%N
      | None => (acc, cnt, s)
      end
  | EmptyString => (acc, cnt, s)
  end.

Definition readExponent (s : string) : option Z :=
  match s with
  | EmptyString => Some 0
  | String c s' =>
      if Ascii.eqb c "e" || Ascii.eqb c "E" then
        let '(neg, ds) :=
          match s' with
          | String "+" r => (false, r)
          | String "-" r => (true, r)
          | _ => (false, s')
          end in
        match readDigits 10 ds 0 0 with
        | (v, cnt, EmptyString) =>
            if (cnt =? 0)%N then None
            else Some (if neg then - Z.of_N v else Z.of_N v)
        | _ => None
        end
      else None
  end.

(** An unsigned decimal literal as [(M, E)], standing for [M * 10^E]. *)
Definition parseUnsignedDecimal (s : string) : option (Z * Z) :=
  let '(ip, ic, r1) := readDigits 10 s 0 0 in
  let '(fp, fc, r2) :=
    match r1 with
    | String "." r => readDigits 10 r ip 0
    | _ => (ip, 0%N, r1)
    end in
  if (ic + fc =? 0)%N then None
  else match readExponent r2 with
       | Some e => Some (Z.of_N fp, e - Z.of_N fc)
       | None => None
       end.

Definition signed (neg : bool) (x : float) : float := if neg then (- x)%float else x.

(** The number nearest to [M * 10^E], for [0 <= M]. *)
Definition decimalToFloat (M E : Z) : float :=
  if M =? 0 then PrimFloat.zero
  else if 400 <? E then PrimFloat.infinity
  else if E + Z.log2 M <? - 1500 then PrimFloat.zero
  else if 0 <=? E then Z2float (M * 10 ^ E)
  else
    let '(q, e, l) := SFdiv_core_binary prec emax M 0 (10 ^ (- E)) 0 in
    SF2Prim (binary_round_aux prec emax false q e l).

Definition parseRadix (radix : N) (s : string) : float :=
  match readDigits radix s 0 0 with
  | (v, cnt, EmptyString) => if (cnt =? 0)%N then PrimFloat.nan else Z2float (Z.of_N v)
  | _ => PrimFloat.nan
  end.

Definition parseSignedDecimal (s : string) : float :=
  let '(neg, r) :=
    match s with
    | String "+" r => (false, r)
    | String "-" r => (true, r)
    | _ => (false, s)
    end in
  if String.eqb r "Infinity" then signed neg PrimFloat.infinity
  else match parseUnsignedDecimal r with
       | Some (M, E) => signed neg (decimalToFloat M E)
       | None => PrimFloat.nan
       end.

Definition StringToNumber (s : string) : float :=
  match trim s with
  | EmptyString => PrimFloat.zero
  | String "0" (String "x" r) | String "0" (String "X" r) => parseRadix 16 r
  | String "0" (String "o" r) | String "0" (String "O" r) => parseRadix 8 r
  | String "0" (String "b" r) | String "0" (String "B" r) => parseRadix 2 r
  | t => parseSignedDecimal t
  end.

(** [Number(v)] *)
Definition Number (v : jsval) : float :=
  match v with
  | JUndefined => PrimFloat.nan
  | JNull => PrimFloat.zero
  | JNumber x => x
  | JString s => StringToNumber s
  end.

(** [ToBoolean] *)
Definition ToBoolean (v : jsval) : bool :=
  match v with
  | JUndefined | JNull => false
  | JNumber x => truthy x
  | JString s => nonEmpty s
  end.

(** [ToIntegerOrInfinity] *)
Inductive intinf := NegInfinity | Finite (n : Z) | PosInfinity.

Definition ToIntegerOrInfinity (x : float) : intinf :=
  match Prim2SF x with
  | S754_nan | S754_zero _ => Finite 0
  | S754_infinity s => if s then NegInfinity else PosInfinity
  | S754_finite s m e =>
      let a := if 0 <=? e then Z.pos m * 2 ^ e else Z.pos m / 2 ^ (- e) in
      Finite (if s then - a else a)
  end.

(** [Array.prototype.slice(0, end)] *)
Definition slice0 {A} (l : list A) (end_ : float) : list A :=
  let len := Z.of_nat (length l) in
  let final :=
    match ToIntegerOrInfinity end_ with
    | NegInfinity => 0
    | Finite r => if r <? 0 then Z.max (len + r) 0 else Z.min r len
    | PosInfinity => len
    end in
  take (Z.to_nat final) l.

End JS.

(** ** [src/server.js] *)

Module Server.
Import JS.

(** *** Rate limiter: 30 requests per minute and client address *)

Record HitRecord := { count : Z; ts : Z }.

Definition WINDOW_MS : Z := 60000.
Definition MAX_REQ : Z := 30.

(** What the middleware reads from a request. *)
Record Request := {
  x_forwarded_for : option string;
  remoteAddress : option string
}.

(** [a || b] on optional strings: the empty string is falsy. *)
Definition orString (a : option string) (b : option string) : option string :=
  match a with
  | Some s => if nonEmpty s then a else b
  | None => b
  end.

(** [req.headers["x-forwarded-for"]?.split(",")[0]?.trim() ||
     req.socket.remoteAddress || "unknown"] *)
Definition clientIp (req : Request) : string :=
  let fwd :=
    match x_forwarded_for req with
    | Some h => match split "," h with
                | first :: _ => Some (trim first)
                | [] => None
                end
    | None => None
    end in
  match orString (orString fwd (remoteAddress req)) (Some "unknown"%string) with
  | Some ip => ip
  | None => "unknown"%string
  end.

Inductive Verdict :=
  | Next
  | TooManyRequests.

(** The body of the middleware for the client address [ip] at time [now]
    (the value of [Date.now()]): the new [hits] map and the verdict.  Nothing
    in it throws for the requests modelled here, so its [catch] branch is
    not reached. *)
Definition rateLimit (hits : gmap string HitRecord) (ip : string) (now : Z)
  : gmap string HitRecord * Verdict :=
  match hits !! ip with
  | None => (<[ip := {| count := 1; ts := now |}]> hits, Next)
  | Some rec =>
      if WINDOW_MS <? now - ts rec then
        (<[ip := {| count := 1; ts := now |}]> hits, Next)
      else if MAX_REQ <=? count rec then (hits, TooManyRequests)
      else (<[ip := {| count := count rec + 1; ts := ts rec |}]> hits, Next)
  end.

Definition rateLimiter (hits : gmap string HitRecord) (req : Request) (now : Z)
  : gmap string HitRecord * Verdict :=
  rateLimit hits (clientIp req) now.

(** The middleware over a sequence of requests, oldest first. *)
Fixpoint serve (hits : gmap string HitRecord) (reqs : list (string * Z))
  : gmap string HitRecord * list Verdict :=
  match reqs with
  | [] => (hits, [])
  | (ip, now) :: rest =>
      let '(hits1, v) := rateLimit hits ip now in
      let '(hits2, vs) := serve hits1 rest in
      (hits2, v :: vs)
  end.

(** *** Utilities *)

(** [num(v, d)] *)
Definition num (v : jsval) (d : float) : float :=
  if Number_isFinite (Number v) then Number v else d.

(** [str(v, d)] *)
Definition str (v : jsval) (d : string) : string :=
  match v with
  | JString s => if nonEmpty (trim s) then trim s else d
  | _ => d
  end.

(** [landed(p, s, t)] *)
Definition landed (p s t : float) : float :=
  (Math_round ((p + s + t) * 100) / 100)%float.

(** *** Listings *)

Record Listing := {
  source : string;
  title : string;
  seller : string;
  rating : jsval;
  reviews : jsval;
  variant : string;
  price : jsval;
  shipping : jsval;
  estimated_tax : jsval;
  landed_price : jsval;
  eta_days : jsval;
  listing_url : string
}.

(** [{ ...it, landed_price: v }] *)
Definition withLanded (it : Listing) (v : float) : Listing :=
  {| source := source it; title := title it; seller := seller it;
     rating := rating it; reviews := reviews it; variant := variant it;
     price := price it; shipping := shipping it;
     estimated_tax := estimated_tax it; landed_price := JNumber v;
     eta_days := eta_days it; listing_url := listing_url it |}.

Definition mockBase (q : string) : list Listing :=
  [ {| source := "Etsy"; title := q +:+ " Alpha"; seller := "Shop 111";
       rating := JNumber 4.7; reviews := JNumber 120; variant := "Default";
       price := JNumber 19.99; shipping := JNumber 4.99;
       estimated_tax := JNumber 0; landed_price := JUndefined;
       eta_days := JNumber 3; listing_url := "https://etsy.com/listing/1" |};
    {| source := "Shopify (Aggregator)"; title := q +:+ " Beta"; seller := "Brand X";
       rating := JNumber 4.6; reviews := JNumber 803; variant := "Default";
       price := JNumber 27; shipping := JNumber 9;
       estimated_tax := JNumber 0; landed_price := JUndefined;
       eta_days := JNumber 5; listing_url := "https://brandx.com/products/beta" |};
    {| source := "Etsy"; title := q +:+ " Gamma"; seller := "Shop 222";
       rating := JNumber 4.4; reviews := JNumber 52; variant := "Default";
       price := JNumber 16; shipping := JNumber 6.49;
       estimated_tax := JNumber 0; landed_price := JUndefined;
       eta_days := JNumber 6; listing_url := "https://etsy.com/listing/2" |};
    {| source := "Shopify (Curated)"; title := q +:+ " Delta"; seller := "Brand Y";
       rating := JNumber 4.8; reviews := JNumber 431; variant := "Default";
       price := JNumber 31; shipping := JNumber 0;
       estimated_tax := JNumber 0; landed_price := JUndefined;
       eta_days := JNumber 4; listing_url := "https://brandy.com/products/delta" |} ].

(** [mockItemsForQuery(q)]: the fields of the base listings are numbers, so
    [landed] receives them as they are. *)
Definition mockItemsForQuery (q : string) : list Listing :=
  map (fun it => withLanded it (landed (Number (price it)) (Number (shipping it))
                                       (Number (estimated_tax it))))
      (mockBase q).

(** *** Orchestrator *)

(** The process environment and the Etsy adapter ([./sources/etsy.js], an
    upstream client): [etsySearch q limit] is [None] when the call throws. *)
Record Env := {
  MOCK_MODE : bool;
  ETSY_API_KEY : option string;
  ETSY_ACCESS_TOKEN : option string;
  etsySearch : string -> float -> option (list Listing)
}.

Record SearchArgs := {
  q : string;
  zip : string;
  minRating : float;
  minReviews : float;
  maxPrice : float;
  sourcesCsv : string;
  limit : float
}.

Definition isSet (v : option string) : bool :=
  match v with Some s => nonEmpty s | None => false end.

Definition DEFAULT_SOURCES : string := "etsy,shopify_agg,shopify_curated".

(** [new Set((sourcesCsv || DEFAULT_SOURCES).split(",")
       .map(s => s.trim().toLowerCase()).filter(Boolean))] *)
Definition allowSet (sourcesCsv : string) : gset string :=
  list_to_set
    (filter (fun s => nonEmpty s = true)
       (map (fun s => toLowerCase (trim s))
          (split "," (if nonEmpty sourcesCsv then sourcesCsv else DEFAULT_SOURCES)))).

Definition has (allow : gset string) (k : string) : bool := bool_decide (k ∈ allow).

Definition canEtsy (env : Env) (allow : gset string) : bool :=
  negb (MOCK_MODE env) && isSet (ETSY_API_KEY env) && isSet (ETSY_ACCESS_TOKEN env)
  && has allow "etsy".

(** The merged listings before filtering (lines 70-85). *)
Definition gather (env : Env) (a : SearchArgs) : list Listing :=
  let allow := allowSet (sourcesCsv a) in
  let items :=
    if canEtsy env allow then
      match etsySearch env (q a) (limit a) with
      | Some found => found
      | None => []
      end
    else [] in
  let items :=
    if has allow "shopify_agg" || has allow "shopify_curated" then
      items ++ filter (fun it => includes (toLowerCase (source it)) "shopify" = true)
                      (mockItemsForQuery (q a))
    else items in
  match items with
  | [] => mockItemsForQuery (q a)
  | _ => items
  end.

(** Lines 87-89. *)
Definition applyFilters (a : SearchArgs) (items : list Listing) : list Listing :=
  let items :=
    if (0 <? minRating a)%float
    then filter (fun it => (minRating a <=? num (rating it) 0)%float = true) items
    else items in
  let items :=
    if (0 <? minReviews a)%float
    then filter (fun it => (minReviews a <=? num (reviews it) 0)%float = true) items
    else items in
  if (0 <? maxPrice a)%float
  then filter (fun it => (num (price it) 0 <=? maxPrice a)%float = true) items
  else items.

(** Line 91. *)
Definition relanded (it : Listing) : Listing :=
  withLanded it
    (num (landed_price it)
         (landed (num (price it) 0) (num (shipping it) 0) (num (estimated_tax it) 0))).

(** The comparator of lines 92-97. *)
Definition comparator (a b : Listing) : float :=
  or_else (num (landed_price a) 0 - num (landed_price b) 0)%float
    (or_else (num (rating b) 0 - num (rating a) 0)%float
       (or_else (num (reviews b) 0 - num (reviews a) 0)%float
          (num (eta_days a) 999 - num (eta_days b) 999)%float)).

(** [Array.prototype.sort(cmp)], a stable sort, as a stable insertion sort:
    [x] goes before the first element that the comparator puts after it.
    The comparator of the engine is a total preorder on the listings (see
    [RankingFacts]), for which the sorted order with ties in input order is
    unique. *)
Fixpoint insertSorted (cmp : Listing -> Listing -> float) (x : Listing)
    (sorted : list Listing) : list Listing :=
  match sorted with
  | [] => [x]
  | y :: rest =>
      if (0 <? cmp y x)%float then x :: y :: rest
      else y :: insertSorted cmp x rest
  end.

Definition sort (cmp : Listing -> Listing -> float) (items : list Listing)
  : list Listing :=
  fold_left (fun sorted x => insertSorted cmp x sorted) items [].

(** The listings after filtering, repricing and sorting, before [slice]. *)
Definition ranked (env : Env) (a : SearchArgs) : list Listing :=
  sort comparator (map relanded (applyFilters a (gather env a))).

(** [searchAllSources({ q, zip, minRating, minReviews, maxPrice, sourcesCsv, limit })] *)
Definition searchAllSources (env : Env) (a : SearchArgs) : list Listing :=
  slice0 (ranked env a) (limit a).

(** *** [GET /search] *)

Record Query := {
  query_q : jsval;
  query_zip : jsval;
  query_limit : jsval;
  query_minRating : jsval;
  query_minReviews : jsval;
  query_maxPrice : jsval;
  query_sources : jsval
}.

Inductive Response :=
  | BadRequest (error : string)
  | Ok (items : list Listing).

Definition parseQuery (query : Query) : SearchArgs :=
  {| q := str (query_q query) "";
     zip := str (query_zip query) "90001";
     limit := Math_max 1 (Math_min 100 (num (query_limit query) 10));
     minRating := num (query_minRating query) 0;
     minReviews := num (query_minReviews query) 0;
     maxPrice := num (query_maxPrice query) 0;
     sourcesCsv := str (query_sources query) DEFAULT_SOURCES |}.

(** The handler; nothing in the modelled path throws, so the [catch] branch
    answering 500 is not reached. *)
Definition search (env : Env) (query : Query) : Response :=
  if nonEmpty (str (query_q query) "") then Ok (searchAllSources env (parseQuery query))
  else BadRequest "Missing q".

End Server.

(** ** [src/oauth_etsy.js] *)

Module OAuthEtsy.
Import JS.

Definition AUTH_URL : string := "https://www.etsy.com/oauth/connect".
Definition TOKEN_URL : string := "https://api.etsy.com/v3/public/oauth/token".

(** *** [b64url] *)

Definition b64alphabet : string :=
  "ABCDEFGHIJKLMNOPQRSTUVWXYZabcdefghijklmnopqrstuvwxyz0123456789+/".

Definition b64digit (n : N) : ascii :=
  match String.get (N.to_nat n) b64alphabet with
  | Some c => c
  | None => "="%char
  end.

(** [buf.toString("base64")] *)
Fixpoint base64 (buf : list byte) : string :=
  match buf with
  | [] => EmptyString
  | [a] =>
      let x := Byte.to_N a in
      String (b64digit (x / 4)) (String (b64digit (x mod 4 * 16)) "==")
  | [a; b] =>
      let x := Byte.to_N a in
      let y := Byte.to_N b in
      String (b64digit (x / 4))
        (String (b64digit (x mod 4 * 16 + y / 16))
           (String (b64digit (y mod 16 * 4)) "="))
  | a :: b :: c :: rest =>
      let x := Byte.to_N a in
      let y := Byte.to_N b in
      let z := Byte.to_N c in
      String (b64digit (x / 4))
        (String (b64digit (x mod 4 * 16 + y / 16))
           (String (b64digit (y mod 16 * 4 + z / 64))
              (String (b64digit (z mod 64)) (base64 rest))))
  end%N.

(** [.replace(/\+/g, "-").replace(/\//g, "_")] *)
Fixpoint urlSafe (s : string) : string :=
  match s with
  | EmptyString => EmptyString
  | String c s' =>
      String (if Ascii.eqb c "+" then "-" else if Ascii.eqb c "/" then "_" else c)%char
             (urlSafe s')
  end.

(** [.replace(/=+$/g, "")] *)
Fixpoint stripPadding (s : string) : string :=
  match s with
  | EmptyString => EmptyString
  | String c s' =>
      match stripPadding s' with
      | EmptyString => if Ascii.eqb c "=" then EmptyString else String c EmptyString
      | t => String c t
      end
  end.

Definition b64url (buf : list byte) : string := stripPadding (urlSafe (base64 buf)).

(** *** [URL] and [URLSearchParams] *)

Definition hexDigit (n : N) : ascii :=
  match String.get (N.to_nat n) "0123456789ABCDEF" with
  | Some c => c
  | None => "0"%char
  end.

Definition percent (n : N) : string :=
  String "%" (String (hexDigit (n / 16)) (String (hexDigit (n mod 16)) EmptyString)).

(** The [application/x-www-form-urlencoded] byte serializer, on the UTF-8
    encoding of the code unit. *)
Definition formEncodeChar (c : ascii) : string :=
  let n := N_of_ascii c in
  if ((48 <=? n) && (n <=? 57) || (65 <=? n) && (n <=? 90) || (97 <=? n) && (n <=? 122)
      || (n =? 42) || (n =? 45) || (n =? 46) || (n =? 95))%N
  then String c EmptyString
  else if (n =? 32)%N then "+"
  else if (n <? 128)%N then percent n
  else (percent (192 + n / 64) +:+ percent (128 + n mod 64))%N.

Fixpoint formEncode (s : string) : string :=
  match s with
  | EmptyString => EmptyString
  | String c s' => formEncodeChar c +:+ formEncode s'
  end.

(** [searchParams.set(name, value)] *)
Fixpoint set (params : list (string * string)) (name value : string)
  : list (string * string) :=
  match params with
  | [] => [(name, value)]
  | (k, v) :: rest =>
      if String.eqb k name
      then (k, value) :: filter (fun kv => String.eqb (fst kv) name = false) rest
      else (k, v) :: set rest name value
  end.

(** [URLSearchParams.prototype.toString] *)
Fixpoint serialize (params : list (string * string)) : string :=
  match params with
  | [] => EmptyString
  | [(k, v)] => formEncode k +:+ "=" +:+ formEncode v
  | (k, v) :: rest => formEncode k +:+ "=" +:+ formEncode v +:+ "&" +:+ serialize rest
  end.

(** [url.toString()] for [AUTH_URL] with the given search parameters. *)
Definition authUrl (params : list (string * string)) : string :=
  match params with
  | [] => AUTH_URL
  | _ => AUTH_URL +:+ "?" +:+ serialize params
  end.

(** *** The state store and its expiry timers *)

(** [stateStore] and the pending [setTimeout] callbacks, each with the time
    at which it is due and the state it deletes. *)
Record Store := {
  stateStore : gmap string string;
  timers : list (Z * string)
}.

Definition TTL_MS : Z := 10 * 60 * 1000.

(** The timers that are due at [now] run: each deletes its state. *)
Definition elapse (now : Z) (st : Store) : Store :=
  let due := filter (fun t => fst t <= now) (timers st) in
  {| stateStore := foldr (fun t m => delete (snd t) m) (stateStore st) due;
     timers := filter (fun t => now < fst t) (timers st) |}.

Record OAuthEnv := {
  ETSY_API_KEY : option string;
  ETSY_REDIRECT_URI : option string
}.

(** [process.env.ETSY_REDIRECT_URI || `https://${req.headers.host}/oauth/etsy/callback`] *)
Definition redirectUri (env : OAuthEnv) (host : option string) : string :=
  match ETSY_REDIRECT_URI env with
  | Some u => if nonEmpty u then u else
      "https://" +:+ default "undefined"%string host +:+ "/oauth/etsy/callback"
  | None => "https://" +:+ default "undefined"%string host +:+ "/oauth/etsy/callback"
  end.

Record TokenData := {
  access_token : string;
  refresh_token : option string;
  expires_in : string
}.

Inductive StartResponse :=
  | MissingApiKey
  | Redirect (url : string).

Inductive CallbackResponse :=
  | InvalidOrExpiredState
  | TokenDump (data : TokenData)
  | ExchangeFailed.

Section Handlers.

(** [crypto.createHash("sha256").update(input).digest()] *)
Variable sha256 : string -> list byte.

(** [axios.post(url, body, ...)]: [None] when the call throws. *)
Variable post : string -> string -> option TokenData.

(** The search parameters of lines 35-42. *)
Definition authParams (client_id redirect_uri state code_challenge : string)
  : list (string * string) :=
  set (set (set (set (set (set (set [] "response_type" "code")
    "client_id" client_id) "redirect_uri" redirect_uri) "scope" "listings_r")
    "state" state) "code_challenge" code_challenge) "code_challenge_method" "S256".

(** [GET /oauth/etsy/start] at time [now]; [r16] and [r32] are the results
    of [crypto.randomBytes(16)] and [crypto.randomBytes(32)]. *)
Definition start (env : OAuthEnv) (host : option string) (r16 r32 : list byte)
    (now : Z) (st : Store) : Store * StartResponse :=
  match ETSY_API_KEY env with
  | Some client_id =>
      if nonEmpty client_id then
        let redirect_uri := redirectUri env host in
        let state := b64url r16 in
        let code_verifier := b64url r32 in
        let code_challenge := b64url (sha256 code_verifier) in
        ({| stateStore := <[state := code_verifier]> (stateStore st);
            timers := timers st ++ [(now + TTL_MS, state)] |},
         Redirect (authUrl (authParams client_id redirect_uri state code_challenge)))
      else (st, MissingApiKey)
  | None => (st, MissingApiKey)
  end.

(** The form body of lines 57-63. *)
Definition tokenRequest (env : OAuthEnv) (host : option string)
    (code code_verifier : string) : string :=
  serialize
    [("grant_type", "authorization_code");
     ("client_id", default "undefined" (ETSY_API_KEY env));
     ("redirect_uri", redirectUri env host);
     ("code", code);
     ("code_verifier", code_verifier)]%string.

(** [GET /oauth/etsy/callback] with [req.query.code] and [req.query.state]. *)
Definition callback (env : OAuthEnv) (host : option string)
    (code state : option string) (st : Store) : Store * CallbackResponse :=
  let code_verifier :=
    match state with
    | Some s => stateStore st !! s
    | None => None
    end in
  match code, code_verifier with
  | Some c, Some v =>
      if nonEmpty c && nonEmpty v then
        match post TOKEN_URL (tokenRequest env host c v) with
        | Some data => (st, TokenDump data)
        | None => (st, ExchangeFailed)
        end
      else (st, InvalidOrExpiredState)
  | _, _ => (st, InvalidOrExpiredState)
  end.

End Handlers.

End OAuthEtsy.

(** ** Notions used to state the properties *)

(** The order of the finite binary64 numbers, through an embedding in [Z]. *)
Module FloatOrder.

Definition SFfinite (x : spec_float) : bool :=
  match x with S754_zero _ | S754_finite _ _ _ => true | _ => false end.

Definition SFord (x : spec_float) : Z :=
  match x with
  | S754_finite s m e => cond_Zopp s ((e + 1074) * 2 ^ 52 + Z.pos m)
  | _ => 0
  end.

Definition SFsigned (s : bool) (x : spec_float) : Prop :=
  match x with
  | S754_finite s' _ _ | S754_infinity s' => s' = s
  | _ => False
  end.

Definition ford (x : float) : Z := SFord (Prim2SF x).


End FloatOrder.

(** The ranking rule of the aggregation engine. *)
Module Ranking.
Import JS Server FloatOrder.

(** The four sort keys, as the comparator reads them. *)
Definition landedKey (it : Listing) : float := num (landed_price it) 0.
Definition ratingKey (it : Listing) : float := num (rating it) 0.
Definition reviewsKey (it : Listing) : float := num (reviews it) 0.
Definition etaKey (it : Listing) : float := num (eta_days it) 999.

(** [precedes a b]: the four-key rule allows [a] before [b]. *)
Definition precedes (a b : Listing) : Prop :=
  (landedKey a <? landedKey b)%float = true \/
  ((landedKey a =? landedKey b)%float = true /\
   ((ratingKey b <? ratingKey a)%float = true \/
    ((ratingKey a =? ratingKey b)%float = true /\
     ((reviewsKey b <? reviewsKey a)%float = true \/
      ((reviewsKey a =? reviewsKey b)%float = true /\
       (etaKey a <=? etaKey b)%float = true))))).

(** The same rule on the integers that order the keys. *)
Definition precedesZ (a b : Z * Z * Z * Z) : Prop :=
  let '(la, ra, va, ea) := a in
  let '(lb, rb, vb, eb) := b in
  la < lb \/ (la = lb /\ (rb < ra \/ (ra = rb /\ (vb < va \/ (va = vb /\ ea <= eb))))).

Definition keysZ (it : Listing) : Z * Z * Z * Z :=
  (ford (landedKey it), ford (ratingKey it), ford (reviewsKey it), ford (etaKey it)).


(** [passes a it]: no active filter of the request excludes [it]. *)
Definition passes (a : SearchArgs) (it : Listing) : Prop :=
  ((0 <? minRating a)%float = true -> (minRating a <=? num (rating it) 0)%float = true) /\
  ((0 <? minReviews a)%float = true -> (minReviews a <=? num (reviews it) 0)%float = true) /\
  ((0 <? maxPrice a)%float = true -> (num (price it) 0 <=? maxPrice a)%float = true).

(** The Shopify listings of the mock generator. *)
Definition shopifyMock (q : string) : list Listing :=
  filter (fun it => includes (toLowerCase (source it)) "shopify" = true) (mockItemsForQuery q).

(** The Etsy adapter contributes no listing to the request: it is not
    enabled, it fails, or it finds nothing. *)
Definition etsySilent (env : Env) (a : SearchArgs) : Prop :=
  canEtsy env (allowSet (sourcesCsv a)) = false \/
  etsySearch env (q a) (limit a) = None \/
  etsySearch env (q a) (limit a) = Some [].

End Ranking.

(** The rate limiter seen from one client address. *)
Module Window.
Import Server.

(** The verdicts given to the requests of [ip], oldest first. *)
Definition verdictsOf (ip : string) (reqs : list (string * Z)) (vs : list Verdict)
  : list Verdict :=
  (filter (fun rv => fst (fst rv) = ip) (zip_with pair reqs vs)).*2.

(** The number of requests of [ip]. *)
Definition requestsOf (ip : string) (reqs : list (string * Z)) : nat :=
  length (filter (fun r => fst r = ip) reqs).

(** A request of [ip] at time [now] starts a window: there is no record for
    [ip], or the window of its record has elapsed. *)
Definition opensWindow (hits : gmap string HitRecord) (ip : string) (now : Z) : Prop :=
  match hits !! ip with
  | None => True
  | Some rec => WINDOW_MS < now - ts rec
  end.

End Window.

(** Concrete environments, listings and requests. *)
Module Scenarios.
Import JS Server.

(** Mock mode, as deployed by default. *)
Definition mockEnv : Env :=
  {| MOCK_MODE := true; ETSY_API_KEY := None; ETSY_ACCESS_TOKEN := None;
     etsySearch := fun _ _ => None |}.

(** Live mode with an authorized Etsy adapter that finds [found]. *)
Definition liveEnv (found : list Listing) : Env :=
  {| MOCK_MODE := false; ETSY_API_KEY := Some "key"%string;
     ETSY_ACCESS_TOKEN := Some "token"%string;
     etsySearch := fun _ _ => Some found |}.

Definition args (sources : string) (lim : float) : SearchArgs :=
  {| q := "mug"; zip := "90001"; minRating := 0; minReviews := 0; maxPrice := 0;
     sourcesCsv := sources; limit := lim |}.

(** A request for the Etsy source with a rating bound. *)
Definition ratedArgs (bound : float) : SearchArgs :=
  {| q := "mug"; zip := "90001"; minRating := bound; minReviews := 0; maxPrice := 0;
     sourcesCsv := "etsy"; limit := 10 |}.

Definition etsyListing (name : string) (landedPrice eta : jsval) : Listing :=
  {| source := "Etsy"; title := name; seller := "Shop 333";
     rating := JNumber 4.5; reviews := JNumber 10; variant := "Default";
     price := JNumber 10; shipping := JNumber 5; estimated_tax := JNumber 0;
     landed_price := landedPrice; eta_days := eta;
     listing_url := "https://etsy.com/listing/3" |}.

(** The first mock listing for the query [mug], as the engine returns it. *)
Definition mugAlpha : Listing :=
  {| source := "Etsy"; title := "mug Alpha"; seller := "Shop 111";
     rating := JNumber 4.7; reviews := JNumber 120; variant := "Default";
     price := JNumber 19.99; shipping := JNumber 4.99; estimated_tax := JNumber 0;
     landed_price := JNumber 24.98; eta_days := JNumber 3;
     listing_url := "https://etsy.com/listing/1" |}.

Definition query (qv limitv sourcesv : jsval) : Query :=
  {| query_q := qv; query_zip := JUndefined; query_limit := limitv;
     query_minRating := JUndefined; query_minReviews := JUndefined;
     query_maxPrice := JUndefined; query_sources := sourcesv |}.

End Scenarios.

(** Notions and samples for the OAuth helper. *)
Module OAuthScenarios.
Import OAuthEtsy.

(** The verifier [stateStore.get(state)] finds. *)
Definition storedVerifier (st : Store) (state : option string) : option string :=
  match state with
  | Some s => stateStore st !! s
  | None => None
  end.

(** The characters of unpadded URL-safe base64 text: letters, digits, [-]
    and [_]. *)
Definition urlSafeChar (c : ascii) : bool :=
  let n := N_of_ascii c in
  ((48 <=? n) && (n <=? 57) || (65 <=? n) && (n <=? 90) || (97 <=? n) && (n <=? 122)
   || (n =? 45) || (n =? 95))%N.

Fixpoint isUrlSafe (s : string) : bool :=
  match s with
  | EmptyString => true
  | String c s' => urlSafeChar c && isUrlSafe s'
  end.

(** URL-safe text followed by nothing but padding. *)
Fixpoint onlyPadding (s : string) : bool :=
  match s with
  | EmptyString => true
  | String c s' => Ascii.eqb c "=" && onlyPadding s'
  end.

Fixpoint paddedUrlSafe (s : string) : bool :=
  match s with
  | EmptyString => true
  | String c s' =>
      if Ascii.eqb c "=" then onlyPadding s' else urlSafeChar c && paddedUrlSafe s'
  end.

Definition sampleEnv : OAuthEnv :=
  {| ETSY_API_KEY := Some "key"%string;
     ETSY_REDIRECT_URI := Some "https://cheapfinder.example/oauth/etsy/callback"%string |}.

Definition emptyStore : Store := {| stateStore := ∅; timers := [] |}.

Definition sampleTokens : TokenData :=
  {| access_token := "access"; refresh_token := None; expires_in := "3600" |}.

(** A stand-in for the digest and an upstream that accepts every exchange. *)
Definition sampleDigest (input : string) : list byte := [x2a; x2b].
Definition acceptingUpstream (url body : string) : option TokenData := Some sampleTokens.

Definition zeros (n : nat) : list byte := replicate n x00.

(** The store after one authorization start at time 0. *)
Definition startedStore : Store :=
  (start sampleDigest sampleEnv None (zeros 16) (zeros 32) 0 emptyStore).1.

Definition startedState : string := b64url (zeros 16).

End OAuthScenarios.


(** Notions for the fallback to the mock generator. *)
Module Fallback.
Import JS Server.

(** The key of the allow-list that stands for the source of a listing, by
    the part of the label that tells the sources apart ([etsy],
    [aggregator], [curated]). *)
Definition sourceKey (it : Listing) : string :=
  let label := toLowerCase (source it) in
  if includes label "etsy" then "etsy"
  else if includes label "aggregator" then "shopify_agg"
  else if includes label "curated" then "shopify_curated"
  else "".

(** A request with a rating bound, a price bound and a list of sources. *)
Definition filteredQuery (qv minRatingv maxPricev sourcesv : jsval) : Query :=
  {| query_q := qv; query_zip := JUndefined; query_limit := JUndefined;
     query_minRating := minRatingv; query_minReviews := JUndefined;
     query_maxPrice := maxPricev; query_sources := sourcesv |}.

End Fallback.
(** ** Comparisons and differences of finite binary64 numbers

    The order of the finite numbers is the order of the integers [SFord]
    assigns to them, and the sign of a difference of two finite numbers is
    the result of comparing them. *)

Module FloatFacts.
Import FloatOrder.

Lemma digits2_pos_lower m : 2 ^ (Z.pos (digits2_pos m) - 1) <= Z.pos m.
Proof.
  induction m as [m IH|m IH|]; cbn [digits2_pos]; [| |now compute].
  all: rewrite Pos2Z.inj_succ;
    replace (Z.succ (Z.pos (digits2_pos m)) - 1) with (Z.succ (Z.pos (digits2_pos m) - 1)) by lia;
    rewrite Z.pow_succ_r by lia; lia.
Qed.

Lemma digits2_pos_upper m : Z.pos m < 2 ^ Z.pos (digits2_pos m).
Proof.
  induction m as [m IH|m IH|]; cbn [digits2_pos]; [| |now compute].
  all: rewrite Pos2Z.inj_succ, Z.pow_succ_r by lia; lia.
Qed.

Lemma bounded_inv m e :
  bounded prec emax m e = true ->
  -1074 <= e /\ Z.pos m < 2 ^ 53 /\ (-1074 < e -> 2 ^ 52 <= Z.pos m).
Proof.
  unfold bounded, canonical_mantissa, fexp, SpecFloat.emin, prec, emax.
  intros [Hc _]%andb_true_iff. apply Z.eqb_eq in Hc.
  pose proof (digits2_pos_lower m) as Hlo.
  pose proof (digits2_pos_upper m) as Hup.
  set (d := Z.pos (digits2_pos m)) in *.
  assert (Hd : d <= 53) by lia.
  repeat split.
  - lia.
  - eapply Z.lt_le_trans; [exact Hup|]. apply Z.pow_le_mono_r; lia.
  - intros He. assert (d = 53) as Hd53 by lia.
    rewrite Hd53 in Hlo. exact Hlo.
Qed.

Lemma SFcompare_ord x y :
  valid_binary x = true -> valid_binary y = true ->
  SFfinite x = true -> SFfinite y = true ->
  SFcompare x y = Some (SFord x ?= SFord y).
Proof.
  destruct x as [sx| | |sx mx ex], y as [sy| | |sy my ey]; try discriminate;
    cbn [valid_binary SFfinite SFcompare SFord]; intros Hx Hy _ _.
  - reflexivity.
  - apply bounded_inv in Hy as (He & Hm & _).
    f_equal. symmetry. destruct sy; cbn [cond_Zopp]; [apply Z.compare_gt_iff|apply Z.compare_lt_iff]; lia.
  - apply bounded_inv in Hx as (He & Hm & _).
    f_equal. symmetry. destruct sx; cbn [cond_Zopp]; [apply Z.compare_lt_iff|apply Z.compare_gt_iff]; lia.
  - apply bounded_inv in Hx as (Hex & Hmx & Hnx).
    apply bounded_inv in Hy as (Hey & Hmy & Hny).
    f_equal. symmetry.
    change (Pos.compare_cont Eq mx my) with (Z.pos mx ?= Z.pos my).
    destruct sx, sy; cbn [cond_Zopp].
    + destruct (Z.compare_spec ex ey) as [->|Hlt|Hgt].
      * rewrite <- Z.compare_opp. destruct (Z.compare_spec (Z.pos mx) (Z.pos my)) as [E|E|E]; cbn [CompOpp].
        -- apply Z.compare_eq_iff; lia.
        -- apply Z.compare_gt_iff; lia.
        -- apply Z.compare_lt_iff; lia.
      * apply Z.compare_gt_iff. specialize (Hny ltac:(lia)). lia.
      * apply Z.compare_lt_iff. specialize (Hnx ltac:(lia)). lia.
    + apply Z.compare_lt_iff; lia.
    + apply Z.compare_gt_iff; lia.
    + destruct (Z.compare_spec ex ey) as [->|Hlt|Hgt].
      * destruct (Z.compare_spec (Z.pos mx) (Z.pos my)) as [E|E|E].
        -- apply Z.compare_eq_iff; lia.
        -- apply Z.compare_lt_iff; lia.
        -- apply Z.compare_gt_iff; lia.
      * apply Z.compare_lt_iff. specialize (Hny ltac:(lia)). lia.
      * apply Z.compare_gt_iff. specialize (Hnx ltac:(lia)). lia.
Qed.

Lemma shr_1_m mrs : 0 <= shr_m mrs -> shr_m (shr_1 mrs) = shr_m mrs / 2.
Proof.
  destruct mrs as [m r s]; cbn [shr_m]; intros Hm.
  destruct m as [|[p|p|]|p]; cbn [shr_1 shr_m]; try lia; try reflexivity.
  - apply Z.div_unique with (r := 1); lia.
  - apply Z.div_unique with (r := 0); lia.
Qed.

Ltac pow2_side :=
  solve [lia | apply Z.pow_nonzero; lia | apply Z.pow_pos_nonneg; lia
        | apply Z.lt_le_incl, Z.pow_pos_nonneg; lia].

Lemma iter_shr_1_m p : forall mrs,
  0 <= shr_m mrs -> shr_m (SpecFloat.iter_pos shr_1 p mrs) = shr_m mrs / 2 ^ Z.pos p.
Proof.
  induction p as [p IH|p IH|]; intros mrs Hm; cbn [SpecFloat.iter_pos].
  - assert (H1 : 0 <= shr_m (shr_1 mrs)) by (rewrite shr_1_m by lia; apply Z.div_pos; lia).
    assert (H2 : 0 <= shr_m (SpecFloat.iter_pos shr_1 p (shr_1 mrs)))
      by (rewrite IH by lia; apply Z.div_pos; [lia | apply Z.pow_pos_nonneg; lia]).
    rewrite IH, IH, shr_1_m by lia.
    rewrite !Z.div_div by pow2_side.
    f_equal. replace (Z.pos p~1) with (1 + (Z.pos p + Z.pos p)) by lia.
    rewrite !Z.pow_add_r by lia. change (2 ^ 1) with 2. ring.
  - assert (H2 : 0 <= shr_m (SpecFloat.iter_pos shr_1 p mrs))
      by (rewrite IH by lia; apply Z.div_pos; [lia | apply Z.pow_pos_nonneg; lia]).
    rewrite IH, IH by lia.
    rewrite Z.div_div by pow2_side.
    f_equal. replace (Z.pos p~0) with (Z.pos p + Z.pos p) by lia.
    rewrite Z.pow_add_r by lia. ring.
  - rewrite shr_1_m by lia. reflexivity.
Qed.

Lemma shr_m_of_loc m l : shr_m (shr_record_of_loc m l) = m.
Proof. destruct l as [|[]]; reflexivity. Qed.

Lemma shr_fexp_pos m e l mrs e' :
  0 < m -> -1074 <= e ->
  shr_fexp prec emax m e l = (mrs, e') ->
  0 < shr_m mrs /\ -1074 <= e'.
Proof.
  intros Hm He. unfold shr_fexp, shr, fexp, SpecFloat.emin, prec, emax.
  destruct m as [|p|p]; try lia. cbn [Zdigits2].
  pose proof (digits2_pos_lower p) as Hlo.
  set (d := Z.pos (digits2_pos p)) in *.
  destruct (Z.max (d + e - 53) (3 - 1024 - 53) - e) as [|q|q] eqn:Hn;
    intros [= <- <-]; rewrite ?shr_m_of_loc; try lia.
  rewrite iter_shr_1_m by (rewrite shr_m_of_loc; lia).
  rewrite shr_m_of_loc. split; [|lia].
  apply Z.div_str_pos. split; [apply Z.pow_pos_nonneg; lia|].
  etransitivity; [|exact Hlo]. apply Z.pow_le_mono_r; lia.
Qed.

Lemma round_nearest_even_ge m l : m <= round_nearest_even m l.
Proof. destruct l as [|[]]; cbn; try lia. destruct (Z.even m); lia. Qed.

Lemma binary_round_aux_signed s m e l :
  0 < m -> -1074 <= e -> SFsigned s (binary_round_aux prec emax s m e l).
Proof.
  intros Hm He. unfold binary_round_aux.
  destruct (shr_fexp prec emax m e l) as [mrs1 e1] eqn:H1.
  apply shr_fexp_pos in H1 as [Hm1 He1]; [|lia..].
  destruct (shr_fexp prec emax _ e1 loc_Exact) as [mrs2 e2] eqn:H2.
  apply shr_fexp_pos in H2 as [Hm2 He2];
    [|pose proof (round_nearest_even_ge (shr_m mrs1) (loc_of_shr_record mrs1)); lia|lia].
  destruct (shr_m mrs2) as [|q|q]; try lia.
  destruct (e2 <=? emax - prec); reflexivity.
Qed.

Lemma binary_round_signed s m e :
  -1074 <= e -> SFsigned s (binary_round prec emax s m e).
Proof.
  intros He. unfold binary_round.
  destruct (shl_align m e _) as [mz ez] eqn:Hs.
  apply binary_round_aux_signed; [lia|].
  revert Hs. unfold shl_align, fexp, SpecFloat.emin, prec, emax.
  destruct (_ - e) as [|q|q]; intros [= <- <-]; lia.
Qed.

Lemma binary_normalize_sign z e :
  -1074 <= e ->
  SFcompare (binary_normalize prec emax z e false) (S754_zero false) = Some (z ?= 0).
Proof.
  intros He. destruct z as [|p|p]; cbn [binary_normalize]; [reflexivity| |].
  - pose proof (binary_round_signed false p e He) as H.
    destruct (binary_round _ _ _ _ _) as [| | |]; cbn in H; try contradiction; subst; reflexivity.
  - pose proof (binary_round_signed true p e He) as H.
    destruct (binary_round _ _ _ _ _) as [| | |]; cbn in H; try contradiction; subst; reflexivity.
Qed.

Lemma shl_align_fst m e e' :
  e' <= e -> Z.pos (fst (shl_align m e e')) = Z.pos m * 2 ^ (e - e').
Proof.
  intros Hle. unfold shl_align.
  destruct (e' - e) as [|q|q] eqn:Hd; cbn [fst]; try lia.
  - replace (e - e') with 0 by lia. lia.
  - replace (e - e') with (Z.pos q) by lia.
    change (Pos.iter xO m q) with (shift_pos q m).
    rewrite shift_pos_correct. change (Z.pow_pos 2 q) with (2 ^ Z.pos q). ring.
Qed.

Lemma SFsub_sign x y :
  valid_binary x = true -> valid_binary y = true ->
  SFfinite x = true -> SFfinite y = true ->
  SFcompare (SFsub prec emax x y) (S754_zero false) = Some (SFord x ?= SFord y).
Proof.
  intros Hx Hy Fx Fy.
  destruct x as [sx| | |sx mx ex], y as [sy| | |sy my ey]; try discriminate.
  - destruct sx, sy; reflexivity.
  - rewrite <- (SFcompare_ord (S754_zero sx) (S754_finite sy my ey)) by assumption.
    destruct sx, sy; reflexivity.
  - rewrite <- (SFcompare_ord (S754_finite sx mx ex) (S754_zero sy)) by assumption.
    destruct sx, sy; reflexivity.
  - cbn [valid_binary] in Hx, Hy.
    apply bounded_inv in Hx as (Hex & Hmx & Hnx).
    apply bounded_inv in Hy as (Hey & Hmy & Hny).
    cbn [SFsub]. rewrite binary_normalize_sign by lia.
    f_equal. rewrite !shl_align_fst by lia. cbn [SFord].
    destruct (Z.le_gt_cases ex ey) as [Hle|Hgt].
    + rewrite Z.min_l by lia. rewrite Z.sub_diag, Z.pow_0_r, Z.mul_1_r.
      destruct (Z.eq_dec ex ey) as [->|Hne].
      * rewrite Z.sub_diag, Z.pow_0_r, Z.mul_1_r.
        destruct sx, sy; cbn [cond_Zopp];
          repeat match goal with |- context [?a ?= ?b] => destruct (Z.compare_spec a b) end;
          first [reflexivity | exfalso; lia].
      * specialize (Hny ltac:(lia)).
        assert (2 <= 2 ^ (ey - ex)) by (change 2 with (2 ^ 1) at 1; apply Z.pow_le_mono_r; lia).
        destruct sx, sy; cbn [cond_Zopp];
          repeat match goal with |- context [?a ?= ?b] => destruct (Z.compare_spec a b) end;
          first [reflexivity | exfalso; nia].
    + rewrite Z.min_r by lia. rewrite Z.sub_diag, Z.pow_0_r, Z.mul_1_r.
      specialize (Hnx ltac:(lia)).
      assert (2 <= 2 ^ (ex - ey)) by (change 2 with (2 ^ 1) at 1; apply Z.pow_le_mono_r; lia).
      destruct sx, sy; cbn [cond_Zopp];
        repeat match goal with |- context [?a ?= ?b] => destruct (Z.compare_spec a b) end;
          first [reflexivity | exfalso; nia].
Qed.

Lemma Zeqb_compare a b : (a =? b) = match a ?= b with Eq => true | _ => false end.
Proof.
  destruct (Z.compare_spec a b); [apply Z.eqb_eq | apply Z.eqb_neq | apply Z.eqb_neq]; lia.
Qed.

Lemma is_finite_SF x : is_finite x = true -> SFfinite (Prim2SF x) = true.
Proof.
  unfold is_finite, is_nan, is_infinity.
  rewrite !FloatAxioms.eqb_spec, abs_spec.
  change (Prim2SF PrimFloat.infinity) with (S754_infinity false).
  destruct (Prim2SF x) as [s|s| |s m e]; cbn; try reflexivity; try discriminate.
  destruct s; discriminate.
Qed.

Lemma SFcompare_refl x : SFfinite x = true -> SFcompare x x = Some Eq.
Proof.
  destruct x as [s|s| |s m e]; try discriminate; intros _; cbn; [reflexivity|].
  rewrite Z.compare_refl.
  change (Pos.compare_cont Eq m m) with (m ?= m)%positive.
  rewrite Pos.compare_refl. destruct s; reflexivity.
Qed.

Lemma is_finite_not_nan x : is_finite x = true -> is_nan x = false.
Proof.
  intros H. unfold is_nan. rewrite FloatAxioms.eqb_spec. unfold SFeqb.
  rewrite SFcompare_refl by (apply is_finite_SF; assumption). reflexivity.
Qed.

Section Finite.
Variables x y : float.
Hypothesis Hx : is_finite x = true.
Hypothesis Hy : is_finite y = true.

Lemma compare_ford : SFcompare (Prim2SF x) (Prim2SF y) = Some (ford x ?= ford y).
Proof. apply SFcompare_ord; auto using Prim2SF_valid, is_finite_SF. Qed.

Lemma ltb_ford : (x <? y)%float = (ford x <? ford y).
Proof. rewrite FloatAxioms.ltb_spec. unfold SFltb, Z.ltb. rewrite compare_ford. reflexivity. Qed.

Lemma leb_ford : (x <=? y)%float = (ford x <=? ford y).
Proof.
  rewrite FloatAxioms.leb_spec. unfold SFleb, Z.leb. rewrite compare_ford.
  destruct (ford x ?= ford y); reflexivity.
Qed.

Lemma eqb_ford : (x =? y)%float = (ford x =? ford y).
Proof.
  rewrite FloatAxioms.eqb_spec, Zeqb_compare. unfold SFeqb. rewrite compare_ford.
  reflexivity.
Qed.

Lemma sub_compare_zero :
  SFcompare (Prim2SF (x - y)) (S754_zero false) = Some (ford x ?= ford y).
Proof.
  rewrite sub_spec. apply SFsub_sign; auto using Prim2SF_valid, is_finite_SF.
Qed.

Lemma sub_neg : (x - y <? 0)%float = (ford x <? ford y).
Proof.
  rewrite FloatAxioms.ltb_spec. change (Prim2SF 0) with (S754_zero false).
  unfold SFltb, Z.ltb. rewrite sub_compare_zero. reflexivity.
Qed.

Lemma sub_pos : (0 <? x - y)%float = (ford y <? ford x).
Proof.
  rewrite FloatAxioms.ltb_spec. change (Prim2SF 0) with (S754_zero false).
  pose proof sub_compare_zero as H.
  unfold SFltb, Z.ltb. rewrite (Z.compare_antisym (ford x) (ford y)).
  destruct (Prim2SF (x - y)) as [s|s| |s m e]; cbn in H |- *;
    try discriminate; injection H as <-; try destruct s; reflexivity.
Qed.

Lemma sub_truthy : JS.truthy (x - y) = negb (ford x =? ford y).
Proof.
  unfold JS.truthy, is_zero, is_nan. rewrite !FloatAxioms.eqb_spec.
  change (Prim2SF PrimFloat.zero) with (S754_zero false).
  pose proof sub_compare_zero as H. rewrite Zeqb_compare. unfold SFeqb.
  destruct (Prim2SF (x - y)) as [s|s| |s m e]; cbn in H |- *; try discriminate.
  - injection H as <-. reflexivity.
  - injection H as <-. destruct s; reflexivity.
  - injection H as <-. rewrite Z.compare_refl.
    change (Pos.compare_cont Eq m m) with (m ?= m)%positive.
    rewrite Pos.compare_refl. destruct s; reflexivity.
Qed.

End Finite.

(** [b <= 0] excludes [0 < b], for every number [b]. *)
Lemma leb_zero_not_pos b : (b <=? 0)%float = true -> (0 <? b)%float = false.
Proof.
  rewrite FloatAxioms.leb_spec, FloatAxioms.ltb_spec. change (Prim2SF 0) with (S754_zero false).
  unfold SFleb, SFltb.
  destruct (Prim2SF b) as [s|s| |s m e]; cbn; try reflexivity; try discriminate;
    destruct s; try reflexivity; discriminate.
Qed.

End FloatFacts.
(** ** Facts about the ranking *)

Module RankingFacts.
Import JS Server FloatOrder FloatFacts Ranking.

Lemma num_finite v d : is_finite d = true -> is_finite (num v d) = true.
Proof.
  intros Hd. unfold num, Number_isFinite.
  destruct (is_finite (Number v)) eqn:E; assumption.
Qed.

Lemma key_finite :
  forall it, is_finite (landedKey it) = true /\ is_finite (ratingKey it) = true /\
             is_finite (reviewsKey it) = true /\ is_finite (etaKey it) = true.
Proof. intros it; repeat split; apply num_finite; reflexivity. Qed.

Ltac key_facts a :=
  let H := fresh in
  pose proof (key_finite a) as H; destruct H as (? & ? & ? & ?).

Ltac bool_to_Z :=
  repeat match goal with
    | H : context [(?a =? ?b)%Z] |- _ => destruct (Z.eqb_spec a b)
    | |- context [(?a =? ?b)%Z] => destruct (Z.eqb_spec a b)
    | H : context [(?a <? ?b)%Z] |- _ => destruct (Z.ltb_spec a b)
    | |- context [(?a <? ?b)%Z] => destruct (Z.ltb_spec a b)
    | H : context [(?a <=? ?b)%Z] |- _ => destruct (Z.leb_spec a b)
    | |- context [(?a <=? ?b)%Z] => destruct (Z.leb_spec a b)
    end.

Lemma precedes_keysZ a b : precedes a b <-> precedesZ (keysZ a) (keysZ b).
Proof.
  key_facts a. key_facts b. unfold precedes, precedesZ, keysZ.
  rewrite !ltb_ford, !eqb_ford, !leb_ford by assumption.
  rewrite !Z.ltb_lt, !Z.eqb_eq, !Z.leb_le. reflexivity.
Qed.

(** The comparator is positive exactly when its first argument must come
    after the second one. *)
Lemma comparator_pos a b :
  (0 <? comparator a b)%float = true <-> ~ precedesZ (keysZ a) (keysZ b).
Proof.
  key_facts a. key_facts b. unfold comparator, or_else, precedesZ, keysZ.
  fold (landedKey a) (landedKey b) (ratingKey a) (ratingKey b)
       (reviewsKey a) (reviewsKey b) (etaKey a) (etaKey b).
  rewrite !sub_truthy by assumption.
  repeat match goal with
    | |- context [if negb ?c then _ else _] => destruct c eqn:?; cbn [negb]
    end;
  rewrite sub_pos by assumption;
  rewrite Z.ltb_lt; bool_to_Z; try discriminate; lia.
Qed.

Lemma precedesZ_trans a b c : precedesZ a b -> precedesZ b c -> precedesZ a c.
Proof.
  destruct a as [[[la ra] va] ea], b as [[[lb rb] vb] eb], c as [[[lc rc] vc] ec].
  unfold precedesZ. lia.
Qed.

Lemma precedesZ_total a b : precedesZ a b \/ precedesZ b a.
Proof.
  destruct a as [[[la ra] va] ea], b as [[[lb rb] vb] eb].
  unfold precedesZ. lia.
Qed.

Lemma precedesZ_dec a b : precedesZ a b \/ ~ precedesZ a b.
Proof.
  destruct a as [[[la ra] va] ea], b as [[[lb rb] vb] eb].
  unfold precedesZ. lia.
Qed.

#[export] Instance precedes_trans : Transitive precedes.
Proof.
  intros a b c. rewrite !precedes_keysZ. apply precedesZ_trans.
Qed.

Lemma comparator_pos_precedes a b :
  (0 <? comparator a b)%float = true -> precedes b a.
Proof.
  rewrite comparator_pos, precedes_keysZ.
  destruct (precedesZ_total (keysZ a) (keysZ b)); tauto.
Qed.

Lemma comparator_not_pos_precedes a b :
  (0 <? comparator a b)%float = false -> precedes a b.
Proof.
  intros H. rewrite precedes_keysZ.
  destruct (precedesZ_dec (keysZ a) (keysZ b)) as [|Hn]; [assumption|].
  apply comparator_pos in Hn. congruence.
Qed.


(** *** The sort *)

Lemma insertSorted_perm cmp x l : insertSorted cmp x l ≡ₚ x :: l.
Proof.
  induction l as [|y l IH]; cbn [insertSorted]; [reflexivity|].
  destruct (0 <? cmp y x)%float; [reflexivity|].
  rewrite IH. apply Permutation_swap.
Qed.

Lemma sort_from_perm cmp l : forall acc,
  fold_left (fun sorted x => insertSorted cmp x sorted) l acc ≡ₚ acc ++ l.
Proof.
  induction l as [|x l IH]; intros acc; cbn [fold_left].
  - rewrite app_nil_r. reflexivity.
  - rewrite IH, insertSorted_perm. apply Permutation_middle.
Qed.

Lemma sort_perm cmp l : sort cmp l ≡ₚ l.
Proof. unfold sort. rewrite sort_from_perm. reflexivity. Qed.

Lemma insertSorted_sorted x l :
  StronglySorted precedes l -> StronglySorted precedes (insertSorted comparator x l).
Proof.
  induction 1 as [|y l Hl IH Hy]; cbn [insertSorted].
  - repeat constructor.
  - destruct (0 <? comparator y x)%float eqn:E.
    + apply comparator_pos_precedes in E.
      constructor; [constructor; assumption|].
      constructor; [assumption|].
      eapply Forall_impl; [exact Hy|]. intros z Hz. etransitivity; eassumption.
    + apply comparator_not_pos_precedes in E.
      constructor; [assumption|].
      rewrite insertSorted_perm. constructor; assumption.
Qed.

Lemma sort_from_sorted l : forall acc,
  StronglySorted precedes acc ->
  StronglySorted precedes (fold_left (fun sorted x => insertSorted comparator x sorted) l acc).
Proof.
  induction l as [|x l IH]; intros acc Hacc; cbn [fold_left]; [assumption|].
  apply IH, insertSorted_sorted, Hacc.
Qed.

Lemma sort_sorted l : StronglySorted precedes (sort comparator l).
Proof. apply sort_from_sorted. constructor. Qed.

Lemma StronglySorted_lookup {A} (R : relation A) (l : list A) :
  StronglySorted R l ->
  forall (i j : nat) x y, (i < j)%nat -> l !! i = Some x -> l !! j = Some y -> R x y.
Proof.
  induction 1 as [|a l Hl IH Ha]; intros i j x y Hij Hi Hj; [destruct i; discriminate|].
  destruct j as [|j]; [lia|]. cbn in Hj.
  destruct i as [|i]; cbn in Hi.
  - injection Hi as <-. rewrite Forall_forall in Ha.
    apply Ha. eapply list_elem_of_lookup_2; eassumption.
  - eapply (IH i j); [lia|eassumption..].
Qed.

Lemma slice0_lookup {A} (l : list A) e (i : nat) x :
  slice0 l e !! i = Some x -> l !! i = Some x.
Proof. unfold slice0. intros H. apply lookup_take_Some in H. tauto. Qed.

Lemma slice0_elem_of {A} (l : list A) e x : x ∈ slice0 l e -> x ∈ l.
Proof.
  intros [i Hi]%list_elem_of_lookup_1.
  eapply list_elem_of_lookup_2, slice0_lookup, Hi.
Qed.

End RankingFacts.

(** ** Facts about the aggregation engine *)

Module EngineFacts.
Import JS Server FloatOrder FloatFacts Ranking RankingFacts.

Lemma map_fmap {A B} (f : A -> B) (l : list A) : map f l = f <$> l.
Proof. reflexivity. Qed.

Lemma elem_of_ranked env a it :
  it ∈ ranked env a <-> exists it0, it0 ∈ applyFilters a (gather env a) /\ it = relanded it0.
Proof.
  unfold ranked. rewrite sort_perm, map_fmap, list_elem_of_fmap.
  split; intros (it0 & H1 & H2); exists it0; tauto.
Qed.

Lemma elem_of_search env a it :
  it ∈ searchAllSources env a ->
  exists it0, it0 ∈ applyFilters a (gather env a) /\ it = relanded it0.
Proof. intros H%slice0_elem_of. apply elem_of_ranked, H. Qed.

Lemma length_ranked env a :
  length (ranked env a) = length (applyFilters a (gather env a)).
Proof. unfold ranked. rewrite sort_perm, map_fmap, length_fmap. reflexivity. Qed.

Lemma elem_of_applyFilters a l it :
  it ∈ applyFilters a l <-> it ∈ l /\ passes a it.
Proof.
  unfold applyFilters, passes.
  destruct (0 <? minRating a)%float, (0 <? minReviews a)%float, (0 <? maxPrice a)%float;
    rewrite ?list_elem_of_filter; intuition congruence.
Qed.

Lemma length_applyFilters a l : (length (applyFilters a l) <= length l)%nat.
Proof.
  unfold applyFilters.
  destruct (0 <? minRating a)%float, (0 <? minReviews a)%float, (0 <? maxPrice a)%float;
    repeat (etransitivity; [apply length_filter|]); reflexivity.
Qed.

Lemma applyFilters_inactive a l :
  (0 <? minRating a)%float = false -> (0 <? minReviews a)%float = false ->
  (0 <? maxPrice a)%float = false -> applyFilters a l = l.
Proof. unfold applyFilters. intros -> -> ->. reflexivity. Qed.

(** The mock generator yields four listings whose [landed_price] is already
    the landed price of their fields. *)
Lemma mock_landed q it :
  it ∈ mockItemsForQuery q ->
  relanded it = it /\
  landed_price it =
    JNumber (landed (num (price it) 0) (num (shipping it) 0) (num (estimated_tax it) 0)).
Proof.
  unfold mockItemsForQuery, mockBase. cbn [map].
  rewrite !elem_of_cons, elem_of_nil.
  intros [-> | [-> | [-> | [-> | []]]]]; split; reflexivity.
Qed.

Lemma shopifyMock_subset q it : it ∈ shopifyMock q -> it ∈ mockItemsForQuery q.
Proof. unfold shopifyMock. rewrite list_elem_of_filter. tauto. Qed.

Lemma shopifyMock_length q : length (shopifyMock q) = 2%nat.
Proof. reflexivity. Qed.

Lemma gather_silent env a :
  etsySilent env a ->
  gather env a =
    if has (allowSet (sourcesCsv a)) "shopify_agg" || has (allowSet (sourcesCsv a)) "shopify_curated"
    then shopifyMock (q a) else mockItemsForQuery (q a).
Proof.
  unfold etsySilent, gather. fold (shopifyMock (q a)).
  intros [-> | [-> | ->]];
    try destruct (canEtsy env _);
    destruct (has _ "shopify_agg" || has _ "shopify_curated"); reflexivity.
Qed.

Lemma gather_silent_mock env a it :
  etsySilent env a -> it ∈ gather env a -> it ∈ mockItemsForQuery (q a).
Proof.
  intros Hs. rewrite (gather_silent _ _ Hs).
  destruct (_ || _); [apply shopifyMock_subset | tauto].
Qed.

Lemma gather_silent_length env a :
  etsySilent env a -> (2 <= length (gather env a))%nat.
Proof.
  intros Hs. rewrite (gather_silent _ _ Hs).
  destruct (_ || _); [rewrite shopifyMock_length | cbn]; lia.
Qed.

(** *** The clamp of the [limit] parameter *)

Lemma ford_1 : ford 1 = 1023 * 2 ^ 52.
Proof. reflexivity. Qed.

Lemma ford_100 : ford 100 = 1028 * 2 ^ 52 + 7036874417766400.
Proof. reflexivity. Qed.

Lemma Math_min_100 x :
  is_finite x = true ->
  Math_min 100 x =
    if ford x <? ford 100 then x else if ford 100 <? ford x then 100%float else x.
Proof.
  intros Hx. unfold Math_min.
  rewrite (is_finite_not_nan x Hx). change (is_nan 100) with false.
  change (get_sign 100) with false. cbn [orb].
  rewrite (ltb_ford x 100), (ltb_ford 100 x) by (assumption || reflexivity).
  reflexivity.
Qed.

Lemma Math_max_1 m :
  is_finite m = true ->
  Math_max 1 m = if ford 1 <? ford m then m else 1%float.
Proof.
  intros Hm. unfold Math_max.
  rewrite (is_finite_not_nan m Hm). change (is_nan 1) with false.
  change (get_sign 1) with false. cbn [orb].
  rewrite (ltb_ford 1 m), (ltb_ford m 1) by (assumption || reflexivity).
  destruct (ford 1 <? ford m), (ford m <? ford 1); reflexivity.
Qed.

Lemma clamp_spec x :
  is_finite x = true ->
  let r := Math_max 1 (Math_min 100 x) in
  is_finite r = true /\
  ford r = Z.max (ford 1) (Z.min (ford 100) (ford x)) /\
  ((x <? 1)%float = true -> r = 1%float) /\
  ((100 <? x)%float = true -> r = 100%float) /\
  ((1 <=? x)%float = true -> (x <=? 100)%float = true -> (r =? x)%float = true).
Proof.
  intros Hx r. subst r.
  assert (H1 : is_finite 1 = true) by reflexivity.
  assert (H100 : is_finite 100 = true) by reflexivity.
  pose proof ford_1 as F1. pose proof ford_100 as F100.
  rewrite (ltb_ford x 1), (ltb_ford 100 x), (leb_ford 1 x), (leb_ford x 100) by assumption.
  rewrite (Math_min_100 x Hx).
  destruct (Z.ltb_spec (ford x) (ford 100)) as [Hlt|Hge];
    [|destruct (Z.ltb_spec (ford 100) (ford x)) as [Hgt|Hle]].
  - rewrite (Math_max_1 x Hx).
    destruct (Z.ltb_spec (ford 1) (ford x)) as [Hone|Hone].
    + rewrite (eqb_ford x x), Z.eqb_refl by assumption.
      repeat split; try assumption; intros; bool_to_Z; try discriminate; lia.
    + rewrite (eqb_ford 1 x) by assumption.
      repeat split; intros; bool_to_Z; try reflexivity; try discriminate; lia.
  - rewrite (Math_max_1 100 H100). change (ford 1 <? ford 100) with true. cbv iota.
    rewrite (eqb_ford 100 x) by assumption.
    repeat split; intros; bool_to_Z; try reflexivity; try discriminate; lia.
  - rewrite (Math_max_1 x Hx).
    destruct (Z.ltb_spec (ford 1) (ford x)) as [Hone|Hone]; [|lia].
    rewrite (eqb_ford x x), Z.eqb_refl by assumption.
    repeat split; try assumption; intros; bool_to_Z; try discriminate; lia.
Qed.

(** A number between 1 and 100 has an integer part between 1 and 100. *)
Lemma clamped_integer r :
  ford 1 <= ford r <= ford 100 ->
  exists n, ToIntegerOrInfinity r = Finite n /\ 1 <= n <= 100.
Proof.
  rewrite ford_1, ford_100. unfold ford, ToIntegerOrInfinity.
  pose proof (Prim2SF_valid r) as Hv.
  destruct (Prim2SF r) as [s|s| |s m e]; cbn [SFord]; try lia.
  cbn [valid_binary] in Hv. apply bounded_inv in Hv as (He & Hm & Hn).
  destruct s; cbn [cond_Zopp]; [lia|]. intros Hr.
  assert (-52 <= e <= -46) as Hrange by lia.
  specialize (Hn ltac:(lia)).
  destruct (Z.leb_spec 0 e); [lia|].
  eexists; split; [reflexivity|].
  assert (e = -52 \/ e = -51 \/ e = -50 \/ e = -49 \/ e = -48 \/ e = -47 \/ e = -46)
    as Hcases by lia.
  destruct Hcases as [-> | [-> | [-> | [-> | [-> | [-> | ->]]]]]]; cbn [Z.opp];
    (split; [apply Z.div_le_lower_bound; lia
            | apply Z.lt_succ_r, Z.div_lt_upper_bound; lia]).
Qed.

Lemma slice0_take {A} (l : list A) r n :
  ToIntegerOrInfinity r = Finite n -> 0 <= n -> slice0 l r = take (Z.to_nat n) l.
Proof.
  intros Hr Hn. unfold slice0. rewrite Hr.
  destruct (Z.ltb_spec n 0); [lia|].
  destruct (Z.le_gt_cases n (Z.of_nat (length l))).
  - rewrite Z.min_l by lia. reflexivity.
  - rewrite Z.min_r by lia. rewrite Nat2Z.id, !take_ge by lia. reflexivity.
Qed.

Lemma parsed_limit qry :
  let l := limit (parseQuery qry) in
  is_finite l = true /\ ford 1 <= ford l <= ford 100.
Proof.
  cbn [parseQuery limit].
  destruct (clamp_spec (num (query_limit qry) 10)) as (Hf & Hr & _).
  - apply num_finite. reflexivity.
  - split; [assumption|]. rewrite Hr, ford_1, ford_100. lia.
Qed.

(** A limit of at least 1 is never raised. *)
Lemma parsed_limit_le qry :
  (1 <=? num (query_limit qry) 10)%float = true ->
  (limit (parseQuery qry) <=? num (query_limit qry) 10)%float = true.
Proof.
  cbn [parseQuery limit].
  assert (Hx : is_finite (num (query_limit qry) 10) = true) by (apply num_finite; reflexivity).
  destruct (clamp_spec _ Hx) as (Hf & Hr & _).
  rewrite (leb_ford 1 _), (leb_ford _ _) by (assumption || reflexivity).
  rewrite Hr, !Z.leb_le, ford_100. lia.
Qed.

End EngineFacts.

(** ** Facts about the fallback to the mock generator *)

Module FallbackFacts.
Import JS Server FloatOrder FloatFacts Ranking RankingFacts EngineFacts Fallback.

Lemma nonempty_elem {A} (l : list A) : l <> [] <-> exists x, x ∈ l.
Proof.
  destruct l as [|x l]; split.
  - intros H. contradiction.
  - intros (x & H). apply elem_of_nil in H. contradiction.
  - intros _. exists x. apply list_elem_of_here.
  - intros _. discriminate.
Qed.

Lemma take_nonempty {A} (l : list A) n : (1 <= n)%nat -> take n l <> [] <-> l <> [].
Proof.
  intros Hn. destruct n as [|n]; [lia|].
  destruct l as [|x l]; cbn [take]; split; intros H; try contradiction; discriminate.
Qed.

(** What the endpoint serves is empty only when the filters leave nothing of
    the merged listings. *)
Lemma served_nonempty env qry :
  searchAllSources env (parseQuery qry) <> [] <->
  exists it, it ∈ gather env (parseQuery qry) /\ passes (parseQuery qry) it.
Proof.
  destruct (parsed_limit qry) as (Hf & Hr).
  destruct (clamped_integer _ Hr) as (n & Hn & Hb).
  unfold searchAllSources. rewrite (slice0_take _ _ n) by (assumption || lia).
  rewrite take_nonempty by lia. rewrite nonempty_elem. split.
  - intros (it & (it0 & Hin & _)%elem_of_ranked).
    apply elem_of_applyFilters in Hin. exists it0. exact Hin.
  - intros (it0 & Hin). exists (relanded it0). apply elem_of_ranked.
    exists it0. split; [apply elem_of_applyFilters, Hin | reflexivity].
Qed.

(** With no positive bound every listing passes. *)
Lemma passes_inactive a it :
  (minRating a <=? 0)%float = true -> (minReviews a <=? 0)%float = true ->
  (maxPrice a <=? 0)%float = true -> passes a it.
Proof.
  intros H1%leb_zero_not_pos H2%leb_zero_not_pos H3%leb_zero_not_pos.
  unfold passes. rewrite H1, H2, H3. repeat split; intros; discriminate.
Qed.

(** A listing served from mock listings is one of them, unchanged, and
    passes the filters. *)
Lemma served_from_mock env a it :
  (forall x, x ∈ gather env a -> x ∈ mockItemsForQuery (q a)) ->
  it ∈ searchAllSources env a ->
  it ∈ gather env a /\ it ∈ mockItemsForQuery (q a) /\ passes a it.
Proof.
  intros Hg (it0 & Hin & ->)%elem_of_search.
  apply elem_of_applyFilters in Hin as [Hin Hp].
  destruct (mock_landed _ _ (Hg _ Hin)) as [-> _]. auto.
Qed.

Lemma gather_unrecognized env a :
  has (allowSet (sourcesCsv a)) "etsy" = false ->
  has (allowSet (sourcesCsv a)) "shopify_agg" = false ->
  has (allowSet (sourcesCsv a)) "shopify_curated" = false ->
  gather env a = mockItemsForQuery (q a).
Proof.
  intros He Ha Hc. unfold gather, canEtsy.
  rewrite He, Ha, Hc, !andb_false_r. reflexivity.
Qed.

(** Every mock listing comes from one of the three sources. *)
Lemma sourceKey_mock q it :
  it ∈ mockItemsForQuery q ->
  sourceKey it = "etsy"%string \/ sourceKey it = "shopify_agg"%string \/
  sourceKey it = "shopify_curated"%string.
Proof.
  unfold mockItemsForQuery, mockBase. cbn [map].
  rewrite !elem_of_cons, elem_of_nil.
  intros [-> | [-> | [-> | [-> | []]]]]; vm_compute; auto.
Qed.

(** The four mock listings in the order of the ranking. *)
Lemma ranked_mock_sources q :
  length (sort comparator (map relanded (mockItemsForQuery q))) = 4%nat /\
  map source (sort comparator (map relanded (mockItemsForQuery q)))
    = ["Etsy"; "Etsy"; "Shopify (Curated)"; "Shopify (Aggregator)"]%string.
Proof. split; vm_compute; reflexivity. Qed.

End FallbackFacts.
(** ** Facts about the rate limiter *)

Module WindowFacts.
Import Server Window.

Lemma rateLimit_other hits j t ip : j <> ip -> (rateLimit hits j t).1 !! ip = hits !! ip.
Proof.
  intros Hne. unfold rateLimit.
  destruct (hits !! j) as [rec|]; [|cbn; apply lookup_insert_ne; assumption].
  destruct (WINDOW_MS <? t - ts rec); [cbn; apply lookup_insert_ne; assumption|].
  destruct (MAX_REQ <=? count rec); cbn; [reflexivity|apply lookup_insert_ne; assumption].
Qed.

(** A request inside the running window of [ip]. *)
Lemma rateLimit_in_window hits ip t0 (c : nat) t :
  hits !! ip = Some {| count := Z.of_nat c; ts := t0 |} ->
  t - t0 <= WINDOW_MS ->
  rateLimit hits ip t =
    if (30 <=? c)%nat then (hits, TooManyRequests)
    else (<[ip := {| count := Z.of_nat (S c); ts := t0 |}]> hits, Next).
Proof.
  intros Hrec Ht. unfold rateLimit. rewrite Hrec. cbn [ts count].
  destruct (Z.ltb_spec WINDOW_MS (t - t0)); [lia|].
  unfold MAX_REQ.
  destruct (Z.leb_spec 30 (Z.of_nat c)), (Nat.leb_spec 30 c); try lia; [reflexivity|].
  do 3 f_equal. lia.
Qed.

(** A request that starts a window. *)
Lemma rateLimit_opens hits ip t :
  opensWindow hits ip t ->
  rateLimit hits ip t = (<[ip := {| count := 1; ts := t |}]> hits, Next).
Proof.
  unfold opensWindow, rateLimit. destruct (hits !! ip) as [rec|]; [|reflexivity].
  intros H. destruct (Z.ltb_spec WINDOW_MS (t - ts rec)); [reflexivity|lia].
Qed.

Lemma serve_cons hits ip t reqs :
  serve hits ((ip, t) :: reqs) =
    ((serve (rateLimit hits ip t).1 reqs).1, (rateLimit hits ip t).2 :: (serve (rateLimit hits ip t).1 reqs).2).
Proof.
  cbn [serve]. destruct (rateLimit hits ip t) as [h v]. cbn [fst snd].
  destruct (serve h reqs) as [h' vs]. reflexivity.
Qed.

Lemma verdictsOf_cons_same ip t reqs v vs :
  verdictsOf ip ((ip, t) :: reqs) (v :: vs) = v :: verdictsOf ip reqs vs.
Proof. unfold verdictsOf. cbn [zip_with]. rewrite filter_cons_True by reflexivity. reflexivity. Qed.

Lemma verdictsOf_cons_other ip j t reqs v vs :
  j <> ip -> verdictsOf ip ((j, t) :: reqs) (v :: vs) = verdictsOf ip reqs vs.
Proof.
  intros Hne. unfold verdictsOf. cbn [zip_with].
  rewrite filter_cons_False by (cbn; assumption). reflexivity.
Qed.

Lemma requestsOf_cons_same ip t reqs : requestsOf ip ((ip, t) :: reqs) = S (requestsOf ip reqs).
Proof. unfold requestsOf. rewrite filter_cons_True by reflexivity. reflexivity. Qed.

Lemma requestsOf_cons_other ip j t reqs :
  j <> ip -> requestsOf ip ((j, t) :: reqs) = requestsOf ip reqs.
Proof. intros Hne. unfold requestsOf. rewrite filter_cons_False by (cbn; assumption). reflexivity. Qed.

(** The requests served while the window of [ip] that started at [t0] is
    running, from a record with count [c]. *)
Lemma serve_in_window ip t0 reqs : forall hits (c : nat),
  hits !! ip = Some {| count := Z.of_nat c; ts := t0 |} ->
  (c <= 30)%nat ->
  Forall (fun r => r.1 = ip -> r.2 - t0 <= WINDOW_MS) reqs ->
  verdictsOf ip reqs (serve hits reqs).2 =
    replicate (requestsOf ip reqs `min` (30 - c)) Next ++
    replicate (requestsOf ip reqs - (30 - c)) TooManyRequests /\
  (serve hits reqs).1 !! ip =
    Some {| count := Z.of_nat ((c + requestsOf ip reqs) `min` 30); ts := t0 |}.
Proof.
  induction reqs as [|[j t] reqs IH]; intros hits c Hrec Hc Hall.
  - cbn. split; [reflexivity|]. rewrite Hrec. do 3 f_equal. lia.
  - apply Forall_cons in Hall as [Ht Hall]. cbn [fst snd] in Ht.
    rewrite serve_cons. cbn [fst snd].
    destruct (decide (j = ip)) as [->|Hne].
    + rewrite verdictsOf_cons_same, requestsOf_cons_same.
      rewrite (rateLimit_in_window hits ip t0 c t Hrec (Ht eq_refl)).
      destruct (Nat.leb_spec 30 c) as [Hfull|Hroom]; cbn [fst snd].
      * destruct (IH hits c Hrec Hc Hall) as [IHv IHh].
        rewrite IHv, IHh. replace (30 - c)%nat with 0%nat by lia.
        rewrite !Nat.min_0_r, !Nat.sub_0_r. cbn [replicate app].
        split; [reflexivity|]. do 3 f_equal. lia.
      * destruct (IH (<[ip := {| count := Z.of_nat (S c); ts := t0 |}]> hits) (S c))
          as [IHv IHh]; [apply lookup_insert_eq|lia|assumption|].
        rewrite IHv, IHh.
        replace (30 - c)%nat with (S (30 - S c)) by lia.
        rewrite <- Nat.succ_min_distr. cbn [replicate app Nat.sub].
        split; [reflexivity|]. do 3 f_equal. lia.
    + rewrite verdictsOf_cons_other, requestsOf_cons_other by assumption.
      apply IH; [|assumption..].
      rewrite rateLimit_other; assumption.
Qed.

End WindowFacts.
(** ** Facts about the OAuth helper *)

Module OAuthFacts.
Import JS OAuthEtsy OAuthScenarios.

(** *** [b64url] yields unpadded URL-safe text *)

Definition urlSafeDigit (n : N) : ascii :=
  let c := b64digit n in
  if Ascii.eqb c "+" then "-"%char else if Ascii.eqb c "/" then "_"%char else c.

Lemma urlSafeDigit_ok n :
  (n < 64)%N -> urlSafeChar (urlSafeDigit n) = true /\ Ascii.eqb (urlSafeDigit n) "=" = false.
Proof.
  intros Hn.
  assert (Hall : forallb (fun k => urlSafeChar (urlSafeDigit (N.of_nat k))
                                   && negb (Ascii.eqb (urlSafeDigit (N.of_nat k)) "="))
                         (seq 0 64) = true) by (vm_compute; reflexivity).
  rewrite forallb_forall in Hall.
  assert (Hin : In (N.to_nat n) (seq 0 64)) by (apply in_seq; lia).
  apply Hall in Hin. rewrite N2Nat.id in Hin.
  apply andb_true_iff in Hin as [H1 H2].
  split; [exact H1|]. apply negb_true_iff, H2.
Qed.

Lemma byte_bound (a : byte) : (Byte.to_N a < 256)%N.
Proof. pose proof (Byte.to_N_bounded a). lia. Qed.

Lemma paddedUrlSafe_digit n s :
  (n < 64)%N -> paddedUrlSafe s = true ->
  paddedUrlSafe (String (urlSafeDigit n) s) = true.
Proof.
  intros Hn Hs. destruct (urlSafeDigit_ok n Hn) as [Hc He].
  cbn [paddedUrlSafe]. rewrite He, Hc. exact Hs.
Qed.

Lemma urlSafe_base64_padded buf : paddedUrlSafe (urlSafe (base64 buf)) = true.
Proof.
  revert buf.
  refine (fix go (buf : list byte) : paddedUrlSafe (urlSafe (base64 buf)) = true :=
            match buf with
            | [] => _
            | [a] => _
            | [a; b] => _
            | a :: b :: c :: rest => _
            end).
  - reflexivity.
  - pose proof (byte_bound a). cbn [base64 urlSafe]. fold (urlSafeDigit (Byte.to_N a / 4)).
    fold (urlSafeDigit (Byte.to_N a mod 4 * 16)).
    apply paddedUrlSafe_digit; [apply N.Div0.div_lt_upper_bound; lia|].
    apply paddedUrlSafe_digit; [|reflexivity].
    pose proof (N.mod_upper_bound (Byte.to_N a) 4). lia.
  - pose proof (byte_bound a). pose proof (byte_bound b).
    cbn [base64 urlSafe].
    fold (urlSafeDigit (Byte.to_N a / 4)).
    fold (urlSafeDigit (Byte.to_N a mod 4 * 16 + Byte.to_N b / 16)).
    fold (urlSafeDigit (Byte.to_N b mod 16 * 4)).
    pose proof (N.mod_upper_bound (Byte.to_N a) 4).
    pose proof (N.mod_upper_bound (Byte.to_N b) 16).
    assert (Byte.to_N b / 16 < 16)%N by (apply N.Div0.div_lt_upper_bound; lia).
    apply paddedUrlSafe_digit; [apply N.Div0.div_lt_upper_bound; lia|].
    apply paddedUrlSafe_digit; [lia|].
    apply paddedUrlSafe_digit; [lia|reflexivity].
  - pose proof (byte_bound a). pose proof (byte_bound b). pose proof (byte_bound c).
    cbn [base64 urlSafe].
    fold (urlSafeDigit (Byte.to_N a / 4)).
    fold (urlSafeDigit (Byte.to_N a mod 4 * 16 + Byte.to_N b / 16)).
    fold (urlSafeDigit (Byte.to_N b mod 16 * 4 + Byte.to_N c / 64)).
    fold (urlSafeDigit (Byte.to_N c mod 64)).
    pose proof (N.mod_upper_bound (Byte.to_N a) 4).
    pose proof (N.mod_upper_bound (Byte.to_N b) 16).
    pose proof (N.mod_upper_bound (Byte.to_N c) 64).
    assert (Byte.to_N b / 16 < 16)%N by (apply N.Div0.div_lt_upper_bound; lia).
    assert (Byte.to_N c / 64 < 4)%N by (apply N.Div0.div_lt_upper_bound; lia).
    apply paddedUrlSafe_digit; [apply N.Div0.div_lt_upper_bound; lia|].
    apply paddedUrlSafe_digit; [lia|].
    apply paddedUrlSafe_digit; [lia|].
    apply paddedUrlSafe_digit; [lia|].
    apply go.
Qed.

Lemma stripPadding_onlyPadding s : onlyPadding s = true -> stripPadding s = EmptyString.
Proof.
  induction s as [|c s IH]; cbn [onlyPadding stripPadding]; [reflexivity|].
  intros [Hc Hs]%andb_true_iff. rewrite (IH Hs), Hc. reflexivity.
Qed.

Lemma stripPadding_url_safe s : paddedUrlSafe s = true -> isUrlSafe (stripPadding s) = true.
Proof.
  induction s as [|c s IH]; cbn [paddedUrlSafe stripPadding]; [reflexivity|].
  destruct (Ascii.eqb c "=") eqn:E.
  - intros Hs. rewrite (stripPadding_onlyPadding s Hs). reflexivity.
  - intros [Hc Hs]%andb_true_iff. specialize (IH Hs).
    destruct (stripPadding s); cbn [isUrlSafe]; rewrite Hc; [reflexivity|exact IH].
Qed.

Lemma b64url_url_safe buf : isUrlSafe (b64url buf) = true.
Proof. apply stripPadding_url_safe, urlSafe_base64_padded. Qed.

(** URL-safe text needs no escaping in the query string. *)
Lemma formEncode_url_safe s : isUrlSafe s = true -> formEncode s = s.
Proof.
  induction s as [|c s IH]; cbn [isUrlSafe formEncode]; [reflexivity|].
  intros [Hc Hs]%andb_true_iff. rewrite (IH Hs).
  unfold formEncodeChar. unfold urlSafeChar in Hc.
  destruct (_ || _ || _ || _ || _ || _ || _)%N eqn:E; [reflexivity|].
  exfalso. revert Hc E. generalize (N_of_ascii c). intros n.
  rewrite !orb_true_iff, !orb_false_iff. intuition congruence.
Qed.

(** *** The state store *)

Lemma lookup_after_deletes (due : list (Z * string)) (m : gmap string string) s :
  s ∈ due.*2 -> foldr (fun t m => delete t.2 m) m due !! s = None.
Proof.
  induction due as [|[d s'] due IH]; cbn [fmap list_fmap foldr snd].
  - intros H. inversion H.
  - intros [-> | Hin]%elem_of_cons.
    + apply lookup_delete_eq.
    + destruct (decide (s' = s)) as [->|Hne]; [apply lookup_delete_eq|].
      rewrite lookup_delete_ne by assumption. apply IH, Hin.
Qed.

(** A state whose timer is due is gone after the timers have run. *)
Lemma elapse_expires st now due s :
  (due, s) ∈ timers st -> due <= now -> stateStore (elapse now st) !! s = None.
Proof.
  intros Hin Hdue. unfold elapse. cbn [stateStore].
  apply lookup_after_deletes.
  apply list_elem_of_fmap. exists (due, s). split; [reflexivity|].
  apply list_elem_of_filter. split; [exact Hdue|exact Hin].
Qed.

Lemma start_redirects sha256 env host r16 r32 now st client_id :
  ETSY_API_KEY env = Some client_id -> nonEmpty client_id = true ->
  start sha256 env host r16 r32 now st =
    ({| stateStore := <[b64url r16 := b64url r32]> (stateStore st);
        timers := timers st ++ [(now + TTL_MS, b64url r16)] |},
     Redirect (authUrl (authParams client_id (redirectUri env host) (b64url r16)
                                   (b64url (sha256 (b64url r32)))))).
Proof. unfold start. intros -> ->. reflexivity. Qed.

Lemma start_missing_key sha256 env host r16 r32 now st :
  (start sha256 env host r16 r32 now st).2 <> MissingApiKey ->
  exists client_id, ETSY_API_KEY env = Some client_id /\ nonEmpty client_id = true.
Proof.
  unfold start. destruct (ETSY_API_KEY env) as [cid|]; [|intros []; reflexivity].
  destruct (nonEmpty cid) eqn:E; [|intros []; reflexivity].
  intros _. exists cid. split; [reflexivity|exact E].
Qed.

End OAuthFacts.
(** ** Notions used to state the further properties *)

Module ExtraNotions.
Import JS Server OAuthEtsy OAuthScenarios OAuthFacts.

(** The keys that a list of [sources] entries allows. *)
Definition allowEntries (l : list string) : gset string :=
  list_to_set (filter (fun s => nonEmpty s = true) (map (fun s => toLowerCase (trim s)) l)).

(** The query [qry] with [v] as its [q] parameter. *)
Definition withQ (qry : Query) (v : jsval) : Query :=
  {| query_q := v; query_zip := query_zip qry; query_limit := query_limit qry;
     query_minRating := query_minRating qry; query_minReviews := query_minReviews qry;
     query_maxPrice := query_maxPrice qry; query_sources := query_sources qry |}.

(** A text that does not start with white space. *)
Definition headTrimmed (s : string) : bool :=
  match s with
  | String c _ => negb (isWhiteSpace c)
  | EmptyString => true
  end.

(** The text of [b64url], digit by digit: four digits for three bytes, two
    or three digits for a last group of one or two bytes. *)
Fixpoint unpadded (buf : list byte) : string :=
  match buf with
  | [] => EmptyString
  | [a] =>
      let x := Byte.to_N a in
      String (urlSafeDigit (x / 4)) (String (urlSafeDigit (x mod 4 * 16)) EmptyString)
  | [a; b] =>
      let x := Byte.to_N a in
      let y := Byte.to_N b in
      String (urlSafeDigit (x / 4))
        (String (urlSafeDigit (x mod 4 * 16 + y / 16))
           (String (urlSafeDigit (y mod 16 * 4)) EmptyString))
  | a :: b :: c :: rest =>
      let x := Byte.to_N a in
      let y := Byte.to_N b in
      let z := Byte.to_N c in
      String (urlSafeDigit (x / 4))
        (String (urlSafeDigit (x mod 4 * 16 + y / 16))
           (String (urlSafeDigit (y mod 16 * 4 + z / 64))
              (String (urlSafeDigit (z mod 64)) (unpadded rest))))
  end%N.

(** The value of a digit of the URL-safe alphabet. *)
Definition digitValue (c : ascii) : N :=
  match find (fun n => Ascii.eqb (urlSafeDigit (N.of_nat n)) c) (seq 0 64) with
  | Some n => N.of_nat n
  | None => 0
  end.

Definition byteOf (n : N) : byte :=
  match Byte.of_N n with
  | Some b => b
  | None => x00
  end.

(** The bytes that an unpadded URL-safe base64 text stands for. *)
Fixpoint decode (s : string) : list byte :=
  match s with
  | String c0 (String c1 (String c2 (String c3 rest))) =>
      let d0 := digitValue c0 in
      let d1 := digitValue c1 in
      let d2 := digitValue c2 in
      let d3 := digitValue c3 in
      byteOf (d0 * 4 + d1 / 16) :: byteOf (d1 mod 16 * 16 + d2 / 4)
        :: byteOf (d2 mod 4 * 64 + d3) :: decode rest
  | String c0 (String c1 (String c2 EmptyString)) =>
      let d0 := digitValue c0 in
      let d1 := digitValue c1 in
      let d2 := digitValue c2 in
      [byteOf (d0 * 4 + d1 / 16); byteOf (d1 mod 16 * 16 + d2 / 4)]
  | String c0 (String c1 EmptyString) =>
      [byteOf (digitValue c0 * 4 + digitValue c1 / 16)]
  | _ => []
  end%N.

(** The characters that the form encoding lets through or produces. *)
Definition formChar (c : ascii) : bool :=
  let n := N_of_ascii c in
  ((48 <=? n) && (n <=? 57) || (65 <=? n) && (n <=? 90) || (97 <=? n) && (n <=? 122)
   || (n =? 42) || (n =? 45) || (n =? 46) || (n =? 95) || (n =? 43) || (n =? 37))%N.

Fixpoint allChars (p : ascii -> bool) (s : string) : bool :=
  match s with
  | EmptyString => true
  | String c s' => p c && allChars p s'
  end.

(** Every state of the store has a pending timer that will delete it. *)
Definition timersCover (st : Store) : Prop :=
  forall s, is_Some (stateStore st !! s) -> s ∈ (timers st).*2.

End ExtraNotions.

(** ** Properties of the specification *)

Import JS Server FloatOrder FloatFacts Ranking RankingFacts EngineFacts Window WindowFacts
  Scenarios Fallback FallbackFacts.

(** Two numbers that differ under [==] are different values. *)
Lemma JNumber_neq x y : (x =? y)%float = false -> is_nan x = false -> JNumber x <> JNumber y.
Proof.
  intros Hne Hnan [= ->]. unfold is_nan in Hnan. rewrite Hne in Hnan. discriminate.
Qed.

(** *** Landed price *)

(** C1, as stated, fails: a listing found by the Etsy adapter with
    [landed_price] 1 and price 10, shipping 5 leaves the engine with
    [landed_price] 1, not with [landed 10 5 0 = 15]. *)
Lemma adapter_landed_price_is_kept :
  ~ (forall it,
       it ∈ searchAllSources (liveEnv [etsyListing "mug one" (JNumber 1) (JNumber 3)])
                             (args "etsy" 10) ->
       landed_price it =
         JNumber (landed (num (price it) 0) (num (shipping it) 0) (num (estimated_tax it) 0))).
Proof.
  intros H.
  assert (Hin : etsyListing "mug one" (JNumber 1) (JNumber 3)
                ∈ searchAllSources (liveEnv [etsyListing "mug one" (JNumber 1) (JNumber 3)])
                                   (args "etsy" 10))
    by (vm_compute; apply list_elem_of_here).
  apply H in Hin. vm_compute in Hin.
  revert Hin. apply JNumber_neq; reflexivity.
Qed.

(** C1, amended: a listing leaves the engine with the [landed_price] it came
    with when that is a finite number, and with the landed price of its
    fields otherwise; the listings of the mock generator always carry the
    landed price of their fields. *)
Theorem landed_price_of_results env a it :
  it ∈ searchAllSources env a ->
  exists it0,
    it0 ∈ gather env a /\ it = relanded it0 /\
    landed_price it =
      JNumber (if Number_isFinite (Number (landed_price it0))
               then Number (landed_price it0)
               else landed (num (price it) 0) (num (shipping it) 0)
                           (num (estimated_tax it) 0)) /\
    (it0 ∈ mockItemsForQuery (q a) ->
     landed_price it =
       JNumber (landed (num (price it) 0) (num (shipping it) 0) (num (estimated_tax it) 0))).
Proof.
  intros (it0 & Hin & ->)%elem_of_search.
  apply elem_of_applyFilters in Hin as [Hin _].
  exists it0. repeat split; [assumption|].
  intros Hmock. destruct (mock_landed _ _ Hmock) as [-> Hl]. exact Hl.
Qed.

Lemma landed_price_of_results_witness :
  exists it0,
    it0 ∈ gather mockEnv (args "etsy" 10) /\ mugAlpha = relanded it0 /\
    landed_price mugAlpha = JNumber (landed 19.99 4.99 0).
Proof.
  destruct (landed_price_of_results mockEnv (args "etsy" 10) mugAlpha)
    as (it0 & Hin & Heq & _ & Hmock).
  - vm_compute. apply list_elem_of_further, list_elem_of_here.
  - exists it0. split; [exact Hin|]. split; [exact Heq|].
    apply Hmock, (gather_silent_mock mockEnv (args "etsy" 10)); [left; reflexivity|exact Hin].
Defined.

(** *** Ranking *)

(** C4, as stated, fails: of two listings that tie on landed price, rating
    and reviews, the one without [eta_days] is returned before the one with
    [eta_days] 1000, although the adapter found them in the other order. *)
Lemma missing_eta_sorts_before_late_eta :
  map (fun it => (title it, landedKey it, ratingKey it, reviewsKey it, eta_days it))
      (searchAllSources
         (liveEnv [etsyListing "late" JUndefined (JNumber 1000);
                   etsyListing "unknown" JUndefined JUndefined])
         (args "etsy" 10))
  = [("unknown"%string, 15%float, 4.5%float, 10%float, JUndefined);
     ("late"%string, 15%float, 4.5%float, 10%float, JNumber 1000)].
Proof. vm_compute. reflexivity. Qed.

(** C4, amended: the results are in the order of the four-key rule, ascending
    landed price, then descending rating, then descending reviews, then
    ascending [eta_days] where a missing [eta_days] counts as 999.  So of two
    results that tie on landed price and rating the one with more reviews
    comes first, and a result without [eta_days] is followed, among the
    results that tie with it on the first three keys, only by results whose
    [eta_days] is at least 999. *)
Theorem search_results_ranked env a (i j : nat) x y :
  (i < j)%nat ->
  searchAllSources env a !! i = Some x ->
  searchAllSources env a !! j = Some y ->
  precedes x y /\
  ((landedKey x =? landedKey y)%float = true ->
   (ratingKey x =? ratingKey y)%float = true ->
   (reviewsKey y <=? reviewsKey x)%float = true) /\
  ((landedKey x =? landedKey y)%float = true ->
   (ratingKey x =? ratingKey y)%float = true ->
   (reviewsKey x =? reviewsKey y)%float = true ->
   eta_days x = JUndefined ->
   etaKey x = 999%float /\ (999 <=? etaKey y)%float = true).
Proof.
  intros Hij Hx%slice0_lookup Hy%slice0_lookup.
  assert (Hp : precedes x y).
  { eapply (StronglySorted_lookup precedes); [|eassumption..].
    unfold ranked. apply sort_sorted. }
  split; [exact Hp|].
  apply precedes_keysZ in Hp. unfold precedesZ, keysZ in Hp.
  key_facts x. key_facts y.
  split.
  - rewrite !eqb_ford, leb_ford by assumption. intros; bool_to_Z; try discriminate; try reflexivity; lia.
  - intros T1 T2 T3 He.
    assert (Hk : etaKey x = 999%float) by (unfold etaKey; rewrite He; reflexivity).
    split; [exact Hk|].
    rewrite <- Hk. revert T1 T2 T3.
    rewrite !eqb_ford, leb_ford by assumption.
    intros; bool_to_Z; try discriminate; try reflexivity; lia.
Qed.

Lemma search_results_ranked_witness :
  exists x y,
    searchAllSources mockEnv (args "" 10) !! 0%nat = Some x /\
    searchAllSources mockEnv (args "" 10) !! 1%nat = Some y /\
    precedes x y.
Proof.
  eexists. eexists.
  split; [vm_compute; reflexivity|].
  split; [vm_compute; reflexivity|].
  eapply (search_results_ranked mockEnv (args "" 10) 0 1).
  - lia.
  - vm_compute. reflexivity.
  - vm_compute. reflexivity.
Defined.

(** *** Filters *)

(** C5: every result satisfies each filter whose bound is positive, and a
    merged listing is missing from the ranked list (the results before
    truncation) only if a filter with a positive bound excludes it: a bound
    that is 0 or negative excludes nothing. *)
Theorem filters_follow_positive_bounds env a :
  (forall it, it ∈ searchAllSources env a ->
     ((0 <? minRating a)%float = true -> (minRating a <=? num (rating it) 0)%float = true) /\
     ((0 <? minReviews a)%float = true -> (minReviews a <=? num (reviews it) 0)%float = true) /\
     ((0 <? maxPrice a)%float = true -> (num (price it) 0 <=? maxPrice a)%float = true)) /\
  (forall it0, it0 ∈ gather env a ->
     ((minRating a <=? 0)%float = true \/ (minRating a <=? num (rating it0) 0)%float = true) ->
     ((minReviews a <=? 0)%float = true \/ (minReviews a <=? num (reviews it0) 0)%float = true) ->
     ((maxPrice a <=? 0)%float = true \/ (num (price it0) 0 <=? maxPrice a)%float = true) ->
     relanded it0 ∈ ranked env a).
Proof.
  split.
  - intros it (it0 & Hin & ->)%elem_of_search.
    apply elem_of_applyFilters in Hin as [_ Hp]. exact Hp.
  - intros it0 Hin H1 H2 H3. apply elem_of_ranked. exists it0. split; [|reflexivity].
    apply elem_of_applyFilters. split; [assumption|].
    repeat split; intros Hpos.
    + destruct H1 as [H1%leb_zero_not_pos|H1]; [congruence|assumption].
    + destruct H2 as [H2%leb_zero_not_pos|H2]; [congruence|assumption].
    + destruct H3 as [H3%leb_zero_not_pos|H3]; [congruence|assumption].
Qed.

Lemma filters_follow_positive_bounds_witness :
  (forall it, it ∈ searchAllSources mockEnv (ratedArgs 4.7) ->
     (4.7 <=? num (rating it) 0)%float = true) /\
  mugAlpha ∈ ranked mockEnv (ratedArgs 4.7) /\
  mugAlpha ∈ ranked mockEnv (ratedArgs (-1)).
Proof.
  destruct (filters_follow_positive_bounds mockEnv (ratedArgs 4.7)) as [Hres Hkept].
  destruct (filters_follow_positive_bounds mockEnv (ratedArgs (-1))) as [_ Hkept'].
  split; [|split].
  - intros it Hin. apply (Hres it Hin). reflexivity.
  - apply (Hkept mugAlpha).
    + vm_compute. apply list_elem_of_here.
    + right. reflexivity.
    + left. reflexivity.
    + left. reflexivity.
  - apply (Hkept' mugAlpha).
    + vm_compute. apply list_elem_of_here.
    + left. reflexivity.
    + left. reflexivity.
    + left. reflexivity.
Defined.

(** *** Truncation *)

(** C6: the endpoint answers with the list of the engine as it is; that
    list is the ranked list cut to the integer part of the request's limit,
    which lies between 1 and 100 and is not above the [limit] parameter when
    that is 1 or more, so it has at most that many listings and at most as
    many as survive the filters. *)
Theorem items_length_bounded env qry items :
  search env qry = Ok items ->
  items = searchAllSources env (parseQuery qry) /\
  (1 <=? limit (parseQuery qry))%float = true /\
  (limit (parseQuery qry) <=? 100)%float = true /\
  ((1 <=? num (query_limit qry) 10)%float = true ->
   (limit (parseQuery qry) <=? num (query_limit qry) 10)%float = true) /\
  exists n,
    ToIntegerOrInfinity (limit (parseQuery qry)) = Finite n /\ 1 <= n <= 100 /\
    items = take (Z.to_nat n) (ranked env (parseQuery qry)) /\
    Z.of_nat (length items) <= n /\
    (length items <= length (applyFilters (parseQuery qry) (gather env (parseQuery qry))))%nat.
Proof.
  unfold search. destruct (nonEmpty _); [|discriminate]. intros [= <-].
  destruct (parsed_limit qry) as (Hf & Hr).
  split; [reflexivity|].
  rewrite (leb_ford 1 _), (leb_ford _ 100) by (assumption || reflexivity).
  split; [apply Z.leb_le; lia|]. split; [apply Z.leb_le; lia|].
  split; [apply parsed_limit_le|].
  destruct (clamped_integer _ Hr) as (n & Hn & Hb).
  exists n. split; [assumption|]. split; [assumption|].
  unfold searchAllSources. rewrite (slice0_take _ _ n) by (assumption || lia).
  split; [reflexivity|].
  rewrite length_take, <- length_ranked. lia.
Qed.

Lemma items_length_bounded_witness :
  exists items,
    search mockEnv (query (JString "mug") (JString "1") (JString "etsy")) = Ok items /\
    Z.of_nat (length items) <= 1.
Proof.
  eexists. split; [vm_compute; reflexivity|].
  destruct (items_length_bounded mockEnv (query (JString "mug") (JString "1") (JString "etsy")) _
              ltac:(vm_compute; reflexivity))
    as (_ & _ & _ & _ & n & Hn & _ & _ & Hlen & _).
  vm_compute in Hn. injection Hn as <-. exact Hlen.
Defined.

(** *** Fallback to the mock generator *)

(** C7, as stated, fails: in mock mode the request [q=anything&minRating=4.9]
    is answered with the empty list, with the default sources and also when
    only the Etsy source is asked for, where the fallback to the mock
    generator has taken place. *)
Lemma mock_fallback_empty_under_filter :
  search mockEnv (filteredQuery (JString "anything") (JString "4.9") JUndefined JUndefined)
    = Ok [] /\
  search mockEnv (filteredQuery (JString "anything") (JString "4.9") JUndefined (JString "etsy"))
    = Ok [] /\
  gather mockEnv
      (parseQuery (filteredQuery (JString "anything") (JString "4.9") JUndefined (JString "etsy")))
    = mockItemsForQuery "anything".
Proof. repeat split; vm_compute; reflexivity. Qed.

(** C7, amended: for a request with a non-blank query, when the Etsy adapter
    contributes nothing (not enabled, failed, or nothing found) the endpoint
    answers without an error; the listings merged before the filters and the
    listings of the answer are listings of the mock generator for that
    query, those of the answer pass the filters, and the answer is the same
    in every environment in which the adapter contributes nothing.  The
    answer is non-empty exactly when one of the merged listings passes the
    filters, as it does when no filter has a positive bound. *)
Theorem mock_fallback_reproducible env qry :
  nonEmpty (str (query_q qry) "") = true ->
  etsySilent env (parseQuery qry) ->
  exists items,
    search env qry = Ok items /\
    (forall it, it ∈ gather env (parseQuery qry) ->
       it ∈ mockItemsForQuery (q (parseQuery qry))) /\
    (forall it, it ∈ items ->
       it ∈ mockItemsForQuery (q (parseQuery qry)) /\ passes (parseQuery qry) it) /\
    (forall env', etsySilent env' (parseQuery qry) -> search env' qry = Ok items) /\
    (items <> [] <->
       exists it, it ∈ gather env (parseQuery qry) /\ passes (parseQuery qry) it) /\
    ((minRating (parseQuery qry) <=? 0)%float = true ->
     (minReviews (parseQuery qry) <=? 0)%float = true ->
     (maxPrice (parseQuery qry) <=? 0)%float = true -> items <> []).
Proof.
  intros Hq Hs.
  exists (searchAllSources env (parseQuery qry)).
  unfold search. rewrite Hq. split; [reflexivity|].
  assert (Hg : forall it, it ∈ gather env (parseQuery qry) ->
                 it ∈ mockItemsForQuery (q (parseQuery qry)))
    by (intros it; apply gather_silent_mock, Hs).
  split; [exact Hg|]. split; [|split; [|split]].
  - intros it Hin. apply (served_from_mock _ _ _ Hg) in Hin. tauto.
  - intros env' Hs'. unfold searchAllSources, ranked.
    rewrite (gather_silent _ _ Hs), (gather_silent _ _ Hs'). reflexivity.
  - apply served_nonempty.
  - intros H1 H2 H3. apply served_nonempty.
    pose proof (gather_silent_length _ _ Hs) as Hlen.
    destruct (gather env (parseQuery qry)) as [|it l]; [cbn [length] in Hlen; lia|].
    exists it. split; [apply list_elem_of_here | apply passes_inactive; assumption].
Qed.

Lemma mock_fallback_reproducible_witness :
  exists items,
    search mockEnv (query (JString "anything") JUndefined JUndefined) = Ok items /\
    items <> [] /\
    search (liveEnv []) (query (JString "anything") JUndefined JUndefined) = Ok items.
Proof.
  destruct (mock_fallback_reproducible mockEnv
              (query (JString "anything") JUndefined JUndefined))
    as (items & Hok & _ & _ & Hsame & _ & Hne).
  - reflexivity.
  - left. reflexivity.
  - exists items. split; [exact Hok|]. split.
    + apply Hne; reflexivity.
    + apply Hsame. right. right. reflexivity.
Defined.

(** *** Validation of the request *)

(** C9, as stated, fails: the request [q=mug&limit=500] is answered with
    listings, its limit taken as 100. *)
Lemma limit_out_of_range_is_clamped :
  search mockEnv (query (JString "mug") (JString "500") JUndefined)
    = Ok (searchAllSources mockEnv (args DEFAULT_SOURCES 100)) /\
  (forall e, search mockEnv (query (JString "mug") (JString "500") JUndefined) <> BadRequest e).
Proof. split; [vm_compute; reflexivity|]. intros e. vm_compute. discriminate. Qed.

(** C9, amended: the endpoint rejects a request only when [q] is missing or
    blank.  Every other request is answered by the engine, with the limit
    brought into 1..100: a limit below 1 becomes 1, a limit above 100 becomes
    100, a limit in the range is kept, and a missing or non-numeric limit
    counts as 10. *)
Theorem search_validation env qry :
  (nonEmpty (str (query_q qry) "") = false -> search env qry = BadRequest "Missing q") /\
  (nonEmpty (str (query_q qry) "") = true ->
   search env qry = Ok (searchAllSources env (parseQuery qry))) /\
  (1 <=? limit (parseQuery qry))%float = true /\
  (limit (parseQuery qry) <=? 100)%float = true /\
  ((num (query_limit qry) 10 <? 1)%float = true -> limit (parseQuery qry) = 1%float) /\
  ((100 <? num (query_limit qry) 10)%float = true -> limit (parseQuery qry) = 100%float) /\
  ((1 <=? num (query_limit qry) 10)%float = true ->
   (num (query_limit qry) 10 <=? 100)%float = true ->
   (limit (parseQuery qry) =? num (query_limit qry) 10)%float = true) /\
  (Number_isFinite (Number (query_limit qry)) = false -> num (query_limit qry) 10 = 10%float).
Proof.
  split; [unfold search; intros ->; reflexivity|].
  split; [unfold search; intros ->; reflexivity|].
  destruct (parsed_limit qry) as (Hf & Hr).
  rewrite (leb_ford 1 _), (leb_ford _ 100) by (assumption || reflexivity).
  split; [apply Z.leb_le; lia|]. split; [apply Z.leb_le; lia|].
  cbn [parseQuery limit].
  destruct (clamp_spec (num (query_limit qry) 10)) as (_ & _ & Hlow & Hhigh & Hmid);
    [apply num_finite; reflexivity|].
  split; [exact Hlow|]. split; [exact Hhigh|]. split; [exact Hmid|].
  unfold num. intros ->. reflexivity.
Qed.

Lemma search_validation_witness :
  search mockEnv (query JUndefined (JString "5") JUndefined) = BadRequest "Missing q" /\
  limit (parseQuery (query (JString "mug") (JString "0") JUndefined)) = 1%float /\
  limit (parseQuery (query (JString "mug") (JString "1e3") JUndefined)) = 100%float.
Proof.
  split; [|split].
  - apply (search_validation mockEnv (query JUndefined (JString "5") JUndefined)).
    reflexivity.
  - apply (search_validation mockEnv (query (JString "mug") (JString "0") JUndefined)).
    reflexivity.
  - apply (search_validation mockEnv (query (JString "mug") (JString "1e3") JUndefined)).
    reflexivity.
Defined.

(** *** Unrecognized sources *)

(** C10, as stated, fails: the request
    [q=mug&sources=amazon,ebay&maxPrice=5], whose allow-list holds no
    recognized key, is answered with the empty list, in mock mode and with
    an authorized Etsy adapter alike. *)
Lemma unrecognized_sources_empty_under_filter :
  search mockEnv (filteredQuery (JString "mug") JUndefined (JString "5") (JString "amazon,ebay"))
    = Ok [] /\
  search (liveEnv [mugAlpha])
         (filteredQuery (JString "mug") JUndefined (JString "5") (JString "amazon,ebay"))
    = Ok [].
Proof. split; vm_compute; reflexivity. Qed.

(** C10, amended: when the allow-list of the request holds none of the keys
    [etsy], [shopify_agg] and [shopify_curated], the engine falls back to
    the full mock set before the filters, whatever the environment, and a
    request with a non-blank query is answered without an error.  Every
    listing of the answer is a mock listing that passes the filters and
    whose source has no key in the allow-list, and every mock listing that
    passes the filters is ranked.  The answer is non-empty exactly when a
    mock listing passes the filters; with no positive filter bound it is
    non-empty, and with a limit of 4 or more it then consists of the four
    mock listings, Etsy and Shopify ones alike. *)
Theorem unrecognized_sources_served_from_mock env qry :
  has (allowSet (sourcesCsv (parseQuery qry))) "etsy" = false ->
  has (allowSet (sourcesCsv (parseQuery qry))) "shopify_agg" = false ->
  has (allowSet (sourcesCsv (parseQuery qry))) "shopify_curated" = false ->
  gather env (parseQuery qry) = mockItemsForQuery (q (parseQuery qry)) /\
  (nonEmpty (str (query_q qry) "") = true ->
   search env qry = Ok (searchAllSources env (parseQuery qry))) /\
  (forall it, it ∈ searchAllSources env (parseQuery qry) ->
     it ∈ mockItemsForQuery (q (parseQuery qry)) /\ passes (parseQuery qry) it /\
     has (allowSet (sourcesCsv (parseQuery qry))) (sourceKey it) = false) /\
  (forall it, it ∈ mockItemsForQuery (q (parseQuery qry)) -> passes (parseQuery qry) it ->
     it ∈ ranked env (parseQuery qry)) /\
  (searchAllSources env (parseQuery qry) <> [] <->
     exists it, it ∈ mockItemsForQuery (q (parseQuery qry)) /\ passes (parseQuery qry) it) /\
  ((minRating (parseQuery qry) <=? 0)%float = true ->
   (minReviews (parseQuery qry) <=? 0)%float = true ->
   (maxPrice (parseQuery qry) <=? 0)%float = true ->
   searchAllSources env (parseQuery qry) <> [] /\
   forall n, ToIntegerOrInfinity (limit (parseQuery qry)) = Finite n -> 4 <= n ->
     map source (searchAllSources env (parseQuery qry))
       = ["Etsy"; "Etsy"; "Shopify (Curated)"; "Shopify (Aggregator)"]%string).
Proof.
  intros He Ha Hc.
  pose proof (gather_unrecognized env _ He Ha Hc) as Hg.
  pose proof (served_nonempty env qry) as Hne. rewrite Hg in Hne.
  split; [exact Hg|].
  split; [unfold search; intros ->; reflexivity|].
  split; [|split; [|split; [exact Hne|]]].
  - intros it Hin. apply served_from_mock in Hin as (_ & Hin & Hp);
      [|rewrite Hg; tauto].
    split; [exact Hin|]. split; [exact Hp|].
    destruct (sourceKey_mock _ _ Hin) as [-> | [-> | ->]]; assumption.
  - intros it Hin Hp. apply elem_of_ranked. exists it.
    rewrite Hg, elem_of_applyFilters.
    destruct (mock_landed _ _ Hin) as [-> _]. auto.
  - intros H1 H2 H3. split.
    + apply Hne. eexists. split; [apply list_elem_of_here|].
      apply passes_inactive; assumption.
    + intros n Hn Hb.
      apply leb_zero_not_pos in H1, H2, H3.
      destruct (ranked_mock_sources (q (parseQuery qry))) as [Hlen Hsrc].
      unfold searchAllSources. rewrite (slice0_take _ _ n) by (assumption || lia).
      unfold ranked. rewrite Hg, applyFilters_inactive by assumption.
      rewrite take_ge by (rewrite Hlen; lia). exact Hsrc.
Qed.

Lemma unrecognized_sources_served_from_mock_witness :
  search (liveEnv [mugAlpha])
         (filteredQuery (JString "mug") JUndefined JUndefined (JString "amazon,ebay"))
    = Ok (searchAllSources (liveEnv [mugAlpha])
            (parseQuery (filteredQuery (JString "mug") JUndefined JUndefined
                           (JString "amazon,ebay")))) /\
  map source (searchAllSources (liveEnv [mugAlpha])
                (parseQuery (filteredQuery (JString "mug") JUndefined JUndefined
                               (JString "amazon,ebay"))))
    = ["Etsy"; "Etsy"; "Shopify (Curated)"; "Shopify (Aggregator)"]%string.
Proof.
  destruct (unrecognized_sources_served_from_mock (liveEnv [mugAlpha])
              (filteredQuery (JString "mug") JUndefined JUndefined (JString "amazon,ebay")))
    as (_ & Hok & _ & _ & _ & Hall).
  - reflexivity.
  - reflexivity.
  - reflexivity.
  - split; [apply Hok; reflexivity|].
    destruct Hall as [_ Hall]; [reflexivity | reflexivity | reflexivity |].
    apply (Hall 10); [reflexivity | lia].
Defined.

(** *** Rate limiter *)

(** C3: let a request of [ip] at time [t0] start a window, and let it be
    followed by any requests, of any clients, in which those of [ip] come no
    later than 60 seconds after [t0].  Then the requests of [ip] are admitted
    up to the 30th and rejected from the 31st on, the count of [ip] stops at
    30 with the window still starting at [t0], and a request of [ip] later
    than 60 seconds after [t0] is admitted and starts a window with count 1. *)
Theorem fixed_window_allows_thirty hits ip t0 reqs :
  opensWindow hits ip t0 ->
  Forall (fun r => r.1 = ip -> r.2 - t0 <= WINDOW_MS) reqs ->
  verdictsOf ip ((ip, t0) :: reqs) (serve hits ((ip, t0) :: reqs)).2 =
    replicate (S (requestsOf ip reqs) `min` 30) Next ++
    replicate (S (requestsOf ip reqs) - 30) TooManyRequests /\
  (serve hits ((ip, t0) :: reqs)).1 !! ip =
    Some {| count := Z.of_nat (S (requestsOf ip reqs) `min` 30); ts := t0 |} /\
  forall t, WINDOW_MS < t - t0 ->
    rateLimit (serve hits ((ip, t0) :: reqs)).1 ip t =
      (<[ip := {| count := 1; ts := t |}]> (serve hits ((ip, t0) :: reqs)).1, Next).
Proof.
  intros Hopen Hall.
  rewrite serve_cons, (rateLimit_opens _ _ _ Hopen). cbn [fst snd].
  rewrite verdictsOf_cons_same.
  destruct (serve_in_window ip t0 reqs (<[ip := {| count := 1; ts := t0 |}]> hits) 1)
    as [Hv Hh]; [apply lookup_insert_eq|lia|assumption|].
  rewrite Hv, Hh.
  replace (30 - 1)%nat with 29%nat by lia.
  split; [|split].
  - rewrite <- Nat.succ_min_distr. cbn [replicate app]. do 2 f_equal.
  - reflexivity.
  - intros t Ht. apply rateLimit_opens. unfold opensWindow. rewrite Hh. cbn [ts]. exact Ht.
Qed.

Lemma fixed_window_allows_thirty_witness :
  verdictsOf "10.0.0.7"
    (("10.0.0.7"%string, 0) :: replicate 31 ("10.0.0.7"%string, 60000))
    (serve ∅ (("10.0.0.7"%string, 0) :: replicate 31 ("10.0.0.7"%string, 60000))).2
  = replicate 30 Next ++ replicate 2 TooManyRequests.
Proof.
  destruct (fixed_window_allows_thirty ∅ "10.0.0.7" 0 (replicate 31 ("10.0.0.7"%string, 60000)))
    as (Hv & _ & _).
  - exact I.
  - apply Forall_replicate. intros _. cbn. unfold WINDOW_MS. lia.
  - exact Hv.
Defined.

(** *** OAuth state *)

Import OAuthEtsy OAuthScenarios OAuthFacts.

(** C2, as stated, fails: after one authorization start, two callbacks with
    the state of that start are both accepted. *)
Lemma state_accepted_twice :
  let first :=
    callback acceptingUpstream sampleEnv None (Some "code"%string) (Some startedState)
             startedStore in
  let second :=
    callback acceptingUpstream sampleEnv None (Some "code"%string) (Some startedState)
             first.1 in
  first.2 = TokenDump sampleTokens /\
  second.2 = TokenDump sampleTokens /\
  second.2 <> InvalidOrExpiredState.
Proof. vm_compute. repeat split; discriminate. Qed.

(** C2, amended: the callback looks the verifier of the state up and leaves
    the store as it is.  It fails with [InvalidOrExpiredState] exactly when
    the code is absent or empty or the store holds no verifier for the state,
    as for a state that was never issued or whose timer has run: a state
    issued by a start at time [now] is gone once the timers due at
    [now + 10 minutes] or later have run. *)
Theorem callback_checks_state_without_consuming post env host code state st :
  (callback post env host code state st).1 = st /\
  ((callback post env host code state st).2 = InvalidOrExpiredState <->
   code = None \/ code = Some ""%string \/
   storedVerifier st state = None \/ storedVerifier st state = Some ""%string) /\
  (forall sha256 r16 r32 now st0 t,
     (start sha256 env host r16 r32 now st0).2 <> MissingApiKey ->
     now + TTL_MS <= t ->
     storedVerifier (elapse t (start sha256 env host r16 r32 now st0).1) (Some (b64url r16))
       = None).
Proof.
  split; [|split].
  - unfold callback. fold (storedVerifier st state).
    destruct code as [c|], (storedVerifier st state) as [v|]; try reflexivity.
    destruct (nonEmpty c && nonEmpty v); [|reflexivity].
    destruct (post _ _); reflexivity.
  - unfold callback. fold (storedVerifier st state).
    destruct code as [[|c cs]|], (storedVerifier st state) as [[|v vs]|];
      cbn [nonEmpty andb]; try destruct (post _ _); cbn [snd]; split;
      try (intros [? | [? | [? | ?]]]); try discriminate; intros; auto.
  - intros sha256 r16 r32 now st0 t (cid & Hk & Hne)%start_missing_key Ht.
    rewrite (start_redirects _ _ _ _ _ _ _ _ Hk Hne). cbn [fst storedVerifier].
    apply (elapse_expires _ _ (now + TTL_MS)); [|exact Ht].
    cbn [timers]. apply elem_of_app. right. apply list_elem_of_here.
Qed.

Lemma callback_checks_state_without_consuming_witness :
  (callback acceptingUpstream sampleEnv None None (Some startedState) startedStore).2
    = InvalidOrExpiredState /\
  storedVerifier (elapse 600000 startedStore) (Some startedState) = None.
Proof.
  destruct (callback_checks_state_without_consuming acceptingUpstream sampleEnv None
              None (Some startedState) startedStore) as (_ & Hinv & Hexp).
  split.
  - apply Hinv. left. reflexivity.
  - apply (Hexp sampleDigest (zeros 16) (zeros 32) 0 emptyStore 600000).
    + vm_compute. discriminate.
    + vm_compute. discriminate.
Defined.

(** *** Authorization URL *)

(** C8: the authorization URL is [AUTH_URL] with exactly the parameters
    [response_type=code], [client_id], [redirect_uri], [scope], [state],
    [code_challenge] and [code_challenge_method=S256], where the challenge is
    [b64url] of the SHA-256 digest of the verifier, a text of letters,
    digits, [-] and [_] without padding; the verifier goes to the state
    store only, and the URL depends on it only through that digest. *)
Theorem authorization_url_carries_digest_only sha256 env host r16 r32 now st client_id :
  ETSY_API_KEY env = Some client_id -> nonEmpty client_id = true ->
  (start sha256 env host r16 r32 now st).2 =
    Redirect (AUTH_URL +:+ "?response_type=code&client_id=" +:+ formEncode client_id
              +:+ "&redirect_uri=" +:+ formEncode (redirectUri env host)
              +:+ "&scope=listings_r&state=" +:+ b64url r16
              +:+ "&code_challenge=" +:+ b64url (sha256 (b64url r32))
              +:+ "&code_challenge_method=S256") /\
  authParams client_id (redirectUri env host) (b64url r16) (b64url (sha256 (b64url r32))) =
    [("response_type", "code"); ("client_id", client_id);
     ("redirect_uri", redirectUri env host); ("scope", "listings_r");
     ("state", b64url r16);
     ("code_challenge", b64url (sha256 (b64url r32)));
     ("code_challenge_method", "S256")]%string /\
  isUrlSafe (b64url (sha256 (b64url r32))) = true /\
  stateStore (start sha256 env host r16 r32 now st).1 !! b64url r16 = Some (b64url r32) /\
  (forall r32',
     sha256 (b64url r32') = sha256 (b64url r32) ->
     (start sha256 env host r16 r32' now st).2 = (start sha256 env host r16 r32 now st).2).
Proof.
  intros Hk Hne. split; [|split; [|split; [|split]]].
  - rewrite (start_redirects _ _ _ _ _ _ _ _ Hk Hne). cbn [snd]. f_equal.
    unfold authUrl, authParams. cbn [set String.eqb Ascii.eqb Bool.eqb serialize].
    rewrite !(formEncode_url_safe (b64url _)) by apply b64url_url_safe.
    reflexivity.
  - reflexivity.
  - apply b64url_url_safe.
  - rewrite (start_redirects _ _ _ _ _ _ _ _ Hk Hne). cbn [fst stateStore].
    apply lookup_insert_eq.
  - intros r32' Hd. rewrite !(start_redirects _ _ _ _ _ _ _ _ Hk Hne).
    cbn [snd]. rewrite Hd. reflexivity.
Qed.

Lemma authorization_url_carries_digest_only_witness :
  (start sampleDigest sampleEnv None (zeros 16) (zeros 32) 0 emptyStore).2 =
    Redirect "https://www.etsy.com/oauth/connect?response_type=code&client_id=key&redirect_uri=https%3A%2F%2Fcheapfinder.example%2Foauth%2Fetsy%2Fcallback&scope=listings_r&state=AAAAAAAAAAAAAAAAAAAAAA&code_challenge=Kis&code_challenge_method=S256".
Proof.
  destruct (authorization_url_carries_digest_only sampleDigest sampleEnv None
              (zeros 16) (zeros 32) 0 emptyStore "key")
    as (Hurl & _).
  - reflexivity.
  - reflexivity.
  - rewrite Hurl. vm_compute. reflexivity.
Defined.

(** ** Further properties of the rate limiter *)

Module LimiterExtras.
Import JS Server Window WindowFacts.

Lemma orString_unknown a :
  exists ip, orString a (Some "unknown"%string) = Some ip /\ nonEmpty ip = true.
Proof.
  unfold orString. destruct a as [s|]; [|exists "unknown"%string; split; reflexivity].
  destruct (nonEmpty s) eqn:E; [exists s|exists "unknown"%string]; split;
    reflexivity || assumption.
Qed.

(** X1: the client address under which a request is counted is never the
    empty string: without a usable forwarded header or peer address it is
    ["unknown"]. *)
Theorem clientIp_nonempty req :
  nonEmpty (clientIp req) = true /\
  (x_forwarded_for req = None -> orString (remoteAddress req) None = None ->
   clientIp req = "unknown"%string).
Proof.
  split.
  - unfold clientIp.
    destruct (orString_unknown (orString
      match x_forwarded_for req with
      | Some h => match split "," h with first :: _ => Some (trim first) | [] => None end
      | None => None
      end (remoteAddress req))) as (ip & -> & Hne).
    exact Hne.
  - intros Hf Hr. unfold clientIp. rewrite Hf.
    unfold orString in *. destruct (remoteAddress req) as [s|]; [|reflexivity].
    destruct (nonEmpty s); [discriminate|reflexivity].
Qed.

Lemma includes_comma c s :
  includes (String c s) "," = Ascii.eqb c "," || includes s ",".
Proof.
  cbn [includes String.prefix].
  destruct (ascii_dec "," c) as [<-|Hne].
  - destruct s; reflexivity.
  - destruct (Ascii.eqb_spec c ",") as [->|_]; [congruence|reflexivity].
Qed.

Lemma split_comma_free a :
  includes a "," = false -> split "," a = [a].
Proof.
  induction a as [|c a IH]; [reflexivity|].
  rewrite includes_comma. intros [Hc Ha]%orb_false_iff.
  cbn [split]. rewrite Hc, (IH Ha). reflexivity.
Qed.

Lemma split_first a rest :
  includes a "," = false -> split "," (a +:+ String "," rest) = a :: split "," rest.
Proof.
  induction a as [|c a IH]; [reflexivity|].
  rewrite includes_comma. intros [Hc Ha]%orb_false_iff.
  change (String c a +:+ String "," rest) with (String c (a +:+ String "," rest)).
  cbn [split]. rewrite Hc, (IH Ha). reflexivity.
Qed.

(** X2: a forwarded header decides the client address: of its
    comma-separated entries the first one, trimmed, is taken when it is not
    blank, whatever the peer address of the connection is. *)
Theorem clientIp_forwarded_first a remote :
  includes a "," = false -> nonEmpty (trim a) = true ->
  clientIp {| x_forwarded_for := Some a; remoteAddress := remote |} = trim a /\
  forall rest,
    clientIp {| x_forwarded_for := Some (a +:+ String "," rest); remoteAddress := remote |}
      = trim a.
Proof.
  intros Hc Hne. unfold clientIp. cbn [x_forwarded_for remoteAddress]. split.
  - rewrite (split_comma_free a Hc). unfold orString. rewrite Hne. cbv iota. rewrite Hne. reflexivity.
  - intros rest. rewrite (split_first a rest Hc). unfold orString. rewrite Hne. cbv iota. rewrite Hne. reflexivity.
Qed.

Lemma clientIp_forwarded_first_witness :
  clientIp {| x_forwarded_for := Some " 10.0.0.7 , 192.168.0.1"%string;
              remoteAddress := Some "172.16.0.9"%string |} = "10.0.0.7"%string.
Proof.
  apply (clientIp_forwarded_first " 10.0.0.7 " (Some "172.16.0.9"%string)); reflexivity.
Defined.

(** *** Clients do not interfere *)

Lemma rateLimit_local hits hits' ip t :
  hits !! ip = hits' !! ip ->
  (rateLimit hits ip t).2 = (rateLimit hits' ip t).2 /\
  (rateLimit hits ip t).1 !! ip = (rateLimit hits' ip t).1 !! ip.
Proof.
  intros Heq. unfold rateLimit. rewrite <- Heq.
  destruct (hits !! ip) as [rec|] eqn:E.
  - destruct (WINDOW_MS <? t - ts rec); [cbn; rewrite !lookup_insert_eq; auto|].
    destruct (MAX_REQ <=? count rec); cbn; [auto|rewrite !lookup_insert_eq; auto].
    split; [reflexivity|congruence].
  - cbn. rewrite !lookup_insert_eq. auto.
Qed.

Lemma serve_local ip reqs : forall hits hits',
  hits !! ip = hits' !! ip ->
  verdictsOf ip reqs (serve hits reqs).2 = (serve hits' (filter (fun r => r.1 = ip) reqs)).2 /\
  (serve hits reqs).1 !! ip = (serve hits' (filter (fun r => r.1 = ip) reqs)).1 !! ip.
Proof.
  induction reqs as [|[j t] reqs IH]; intros hits hits' Heq; [split; [reflexivity|exact Heq]|].
  rewrite serve_cons. cbn [fst snd].
  destruct (decide (j = ip)) as [->|Hne].
  - rewrite filter_cons_True by reflexivity.
    rewrite serve_cons, verdictsOf_cons_same. cbn [fst snd].
    destruct (rateLimit_local hits hits' ip t Heq) as [Hv Hl].
    destruct (IH _ _ Hl) as [IHv IHl]. rewrite Hv, IHv. split; [reflexivity|exact IHl].
  - rewrite filter_cons_False by (cbn; assumption).
    rewrite verdictsOf_cons_other by assumption.
    apply IH. rewrite rateLimit_other by assumption. exact Heq.
Qed.

(** X3: clients are limited independently: the verdicts a client gets, and
    the record kept for it, are those it would get if the requests of all
    other clients were left out. *)
Theorem clients_limited_independently hits ip reqs :
  verdictsOf ip reqs (serve hits reqs).2 = (serve hits (filter (fun r => r.1 = ip) reqs)).2 /\
  (serve hits reqs).1 !! ip = (serve hits (filter (fun r => r.1 = ip) reqs)).1 !! ip.
Proof. apply serve_local. reflexivity. Qed.

(** *** The records *)

Lemma rateLimit_counts hits ip t :
  map_Forall (fun _ rec => 1 <= count rec <= MAX_REQ) hits ->
  map_Forall (fun _ rec => 1 <= count rec <= MAX_REQ) (rateLimit hits ip t).1.
Proof.
  intros Hall. unfold rateLimit.
  destruct (hits !! ip) as [rec|] eqn:E.
  - destruct (WINDOW_MS <? t - ts rec);
      [cbn; apply map_Forall_insert_2; [cbn; unfold MAX_REQ; lia|assumption]|].
    destruct (Z.leb_spec MAX_REQ (count rec)); cbn; [assumption|].
    apply map_Forall_insert_2; [|assumption].
    pose proof (Hall ip rec E) as Hrec. cbn in *. lia.
  - cbn. apply map_Forall_insert_2; [cbn; unfold MAX_REQ; lia|assumption].
Qed.

(** X4: the counts stay within bounds: if every record of the map has a
    count between 1 and 30, so has every record after any sequence of
    requests; a rejected request in particular never raises a count above
    30. *)
Theorem counts_stay_bounded hits reqs :
  map_Forall (fun _ rec => 1 <= count rec <= MAX_REQ) hits ->
  map_Forall (fun _ rec => 1 <= count rec <= MAX_REQ) (serve hits reqs).1.
Proof.
  revert hits. induction reqs as [|[ip t] reqs IH]; intros hits Hall; [exact Hall|].
  rewrite serve_cons. cbn [fst]. apply IH, rateLimit_counts, Hall.
Qed.

Lemma counts_stay_bounded_witness :
  map_Forall (fun _ rec => 1 <= count rec <= MAX_REQ)
    (serve ∅ (replicate 40 ("10.0.0.7"%string, 5))).1.
Proof. apply counts_stay_bounded. apply map_Forall_empty. Defined.

Lemma rateLimit_dom hits ip t :
  dom (rateLimit hits ip t).1 = {[ip]} ∪ dom hits.
Proof.
  unfold rateLimit. destruct (hits !! ip) as [rec|] eqn:E.
  - destruct (WINDOW_MS <? t - ts rec); [cbn; apply dom_insert_L|].
    destruct (MAX_REQ <=? count rec); cbn; [|apply dom_insert_L].
    apply (elem_of_dom_2 (D := gset string)) in E. set_solver.
  - cbn. apply dom_insert_L.
Qed.

(** X5: the map of records only grows: after any sequence of requests it
    holds a record for exactly the clients it had a record for and the
    clients that sent a request; no record is ever removed. *)
Theorem records_only_grow hits reqs :
  dom (serve hits reqs).1 = dom hits ∪ list_to_set reqs.*1.
Proof.
  revert hits. induction reqs as [|[ip t] reqs IH]; intros hits.
  - cbn. set_solver.
  - rewrite serve_cons. cbn [fst]. rewrite IH, rateLimit_dom. cbn. set_solver.
Qed.

(** *** The burst at a window boundary *)

Lemma serve_app hits reqs1 reqs2 :
  serve hits (reqs1 ++ reqs2) =
    ((serve (serve hits reqs1).1 reqs2).1, (serve hits reqs1).2 ++ (serve (serve hits reqs1).1 reqs2).2).
Proof.
  revert hits. induction reqs1 as [|[ip t] reqs1 IH]; intros hits.
  - cbn [app serve fst snd]. destruct (serve hits reqs2); reflexivity.
  - rewrite <- app_comm_cons, !serve_cons, IH. reflexivity.
Qed.

Lemma serve_same_client ip t0 k : forall hits (c : nat),
  hits !! ip = Some {| count := Z.of_nat c; ts := t0 |} ->
  forall t, t - t0 <= WINDOW_MS -> (c + k <= 30)%nat ->
  (serve hits (replicate k (ip, t))).2 = replicate k Next /\
  (serve hits (replicate k (ip, t))).1 !! ip =
    Some {| count := Z.of_nat (c + k); ts := t0 |}.
Proof.
  induction k as [|k IH]; intros hits c Hrec t Ht Hk.
  - cbn. rewrite Hrec, Nat.add_0_r. auto.
  - cbn [replicate]. rewrite serve_cons. cbn [fst snd].
    rewrite (rateLimit_in_window hits ip t0 c t Hrec Ht).
    destruct (Nat.leb_spec 30 c); [lia|]. cbn [fst snd].
    destruct (IH (<[ip := {| count := Z.of_nat (S c); ts := t0 |}]> hits) (S c)
                 (lookup_insert_eq _ _ _) t Ht ltac:(lia)) as [Hv Hh].
    rewrite Hv, Hh. split; [reflexivity|]. do 3 f_equal. lia.
Qed.

(** X6: the window is fixed, not sliding: a client whose request at [t0]
    starts a window can send 29 more requests at the last millisecond of
    that window and 30 requests one millisecond later, and all 60 requests
    are let through, 59 of them within one millisecond. *)
Theorem burst_across_window_boundary hits ip t0 :
  opensWindow hits ip t0 ->
  (serve hits ((ip, t0) :: replicate 29 (ip, t0 + WINDOW_MS)
                ++ replicate 30 (ip, t0 + WINDOW_MS + 1))).2
  = replicate 60 Next.
Proof.
  intros Hopen. rewrite serve_cons, (rateLimit_opens _ _ _ Hopen). cbn [fst snd].
  rewrite serve_app. cbn [snd].
  set (h1 := <[ip := {| count := 1; ts := t0 |}]> hits).
  destruct (serve_same_client ip t0 29 h1 1 (lookup_insert_eq _ _ _)
              (t0 + WINDOW_MS) ltac:(lia) ltac:(lia)) as [Hv1 Hh1].
  rewrite Hv1.
  set (h2 := (serve h1 (replicate 29 (ip, t0 + WINDOW_MS))).1) in *.
  change (replicate 30 (ip, t0 + WINDOW_MS + 1))
    with ((ip, t0 + WINDOW_MS + 1) :: replicate 29 (ip, t0 + WINDOW_MS + 1)).
  rewrite serve_cons. cbn [snd fst].
  assert (Hopen2 : opensWindow h2 ip (t0 + WINDOW_MS + 1))
    by (unfold opensWindow; rewrite Hh1; cbn [ts]; lia).
  rewrite (rateLimit_opens _ _ _ Hopen2). cbn [fst snd].
  destruct (serve_same_client ip (t0 + WINDOW_MS + 1) 29
              (<[ip := {| count := 1; ts := t0 + WINDOW_MS + 1 |}]> h2) 1
              (lookup_insert_eq _ _ _) (t0 + WINDOW_MS + 1) ltac:(unfold WINDOW_MS; lia)
              ltac:(lia)) as [Hv2 _].
  rewrite Hv2. reflexivity.
Qed.

Lemma burst_across_window_boundary_witness :
  (serve ∅ (("10.0.0.7"%string, 0) :: replicate 29 ("10.0.0.7"%string, 0 + WINDOW_MS)
             ++ replicate 30 ("10.0.0.7"%string, 0 + WINDOW_MS + 1))).2
  = replicate 60 Next.
Proof. apply (burst_across_window_boundary ∅ "10.0.0.7" 0). exact I. Defined.

End LimiterExtras.

(** ** Further properties of the aggregation engine *)

Module EngineExtras.
Import JS Server FloatOrder FloatFacts Ranking RankingFacts EngineFacts Scenarios
  ExtraNotions.

(** *** Ranking *)

(** X7: ranking neither drops nor duplicates a listing: the ranked list is
    a rearrangement of the filtered, repriced listings, and the engine
    returns an initial part of it. *)
Theorem ranking_keeps_listings env a :
  ranked env a ≡ₚ map relanded (applyFilters a (gather env a)) /\
  searchAllSources env a `prefix_of` ranked env a.
Proof.
  split; [apply sort_perm|]. unfold searchAllSources, slice0. apply prefix_take.
Qed.

Lemma precedes_not_after y x : precedes y x -> (0 <? comparator y x)%float = false.
Proof.
  intros Hp%precedes_keysZ.
  destruct (0 <? comparator y x)%float eqn:E; [|reflexivity].
  apply comparator_pos in E. contradiction.
Qed.

Lemma insertSorted_last x l :
  Forall (fun y => precedes y x) l -> insertSorted comparator x l = l ++ [x].
Proof.
  induction 1 as [|y l Hy _ IH]; [reflexivity|].
  cbn [insertSorted app]. rewrite (precedes_not_after _ _ Hy), IH. reflexivity.
Qed.

Lemma sort_from_ranked l : forall acc,
  StronglySorted precedes (acc ++ l) ->
  fold_left (fun sorted x => insertSorted comparator x sorted) l acc = acc ++ l.
Proof.
  induction l as [|x l IH]; intros acc Hs; cbn [fold_left]; [rewrite app_nil_r; reflexivity|].
  rewrite insertSorted_last.
  - rewrite IH; rewrite <- app_assoc; [reflexivity|exact Hs].
  - apply Forall_forall. intros y Hy.
    apply (StronglySorted_app_1_elem_of precedes acc (x :: l) y x Hs Hy), list_elem_of_here.
Qed.

Lemma sort_ranked l : StronglySorted precedes l -> sort comparator l = l.
Proof. intros Hs. apply (sort_from_ranked l []), Hs. Qed.

(** X8: ranking is idempotent: sorting a list that the engine has sorted
    leaves it as it is. *)
Theorem ranking_idempotent l :
  sort comparator (sort comparator l) = sort comparator l.
Proof. apply sort_ranked, sort_sorted. Qed.

(** X9: the order in which the sources are merged does not matter for
    listings that differ in a sort key: two lists with the same listings, in
    which listings that tie on all four keys are equal, are ranked alike. *)
Theorem ranking_ignores_merge_order l l' :
  l ≡ₚ l' ->
  (forall x y, x ∈ l -> y ∈ l -> precedes x y -> precedes y x -> x = y) ->
  sort comparator l = sort comparator l'.
Proof.
  intros Hperm Htie.
  apply (StronglySorted_unique_strong precedes); [|apply sort_sorted..|].
  - intros x y Hx Hy. rewrite sort_perm in Hx. rewrite sort_perm, <- Hperm in Hy.
    apply Htie; assumption.
  - rewrite !sort_perm. exact Hperm.
Qed.

Lemma ranking_ignores_merge_order_witness :
  sort comparator [mugAlpha; etsyListing "late" (JNumber 15) (JNumber 7)] =
  sort comparator [etsyListing "late" (JNumber 15) (JNumber 7); mugAlpha].
Proof.
  apply ranking_ignores_merge_order; [apply Permutation_swap|].
  intros x y Hx Hy.
  apply elem_of_cons in Hx as [->|Hx]; [|apply list_elem_of_singleton in Hx as ->];
    (apply elem_of_cons in Hy as [->|Hy]; [|apply list_elem_of_singleton in Hy as ->]);
    try reflexivity; intros H1 H2; exfalso;
    apply precedes_keysZ in H1; apply precedes_keysZ in H2;
    vm_compute in H1; vm_compute in H2; intuition discriminate.
Defined.

(** *** Filters and repricing *)

Lemma relanded_keeps it :
  rating (relanded it) = rating it /\ reviews (relanded it) = reviews it /\
  price (relanded it) = price it.
Proof. repeat split. Qed.

Lemma filter_relanded (P : Listing -> Prop) `{!forall it, Decision (P it)} l :
  (forall it, P (relanded it) <-> P it) ->
  filter P (map relanded l) = map relanded (filter P l).
Proof.
  intros HP. induction l as [|it l IH]; [reflexivity|].
  cbn [map]. rewrite !filter_cons.
  destruct (decide (P (relanded it))) as [Hr|Hr], (decide (P it)) as [Hi|Hi];
    cbn [map]; rewrite IH; try reflexivity; exfalso; specialize (HP it); tauto.
Qed.

(** X10: repricing and filtering commute: the filters read rating, reviews
    and price only, so filtering the repriced listings gives the repriced
    filtered listings. *)
Theorem filters_commute_with_repricing a l :
  map relanded (applyFilters a l) = applyFilters a (map relanded l).
Proof.
  unfold applyFilters.
  destruct (0 <? minRating a)%float, (0 <? minReviews a)%float, (0 <? maxPrice a)%float;
    rewrite ?filter_relanded by (intros it; reflexivity); reflexivity.
Qed.

Lemma filter_all {A} (P : A -> Prop) `{!forall x, Decision (P x)} (l : list A) :
  Forall P l -> filter P l = l.
Proof.
  induction 1 as [|x l Hx _ IH]; [reflexivity|].
  rewrite filter_cons_True by assumption. rewrite IH. reflexivity.
Qed.

Lemma applyFilters_passing a l : Forall (passes a) l -> applyFilters a l = l.
Proof.
  intros Hall. unfold applyFilters.
  destruct (0 <? minRating a)%float eqn:E1, (0 <? minReviews a)%float eqn:E2,
           (0 <? maxPrice a)%float eqn:E3;
    repeat (rewrite (filter_all _ l)
              by (eapply Forall_impl; [exact Hall|]; intros it (H1 & H2 & H3);
                  rewrite ?E1, ?E2, ?E3 in *; auto));
    reflexivity.
Qed.

(** X11: filtering can be done per source or after the merge, once or
    repeatedly: the filters of a request distribute over the concatenation
    of listing lists and filtering a filtered list changes nothing. *)
Theorem filters_distribute_and_repeat a l1 l2 :
  applyFilters a (l1 ++ l2) = applyFilters a l1 ++ applyFilters a l2 /\
  applyFilters a (applyFilters a l1) = applyFilters a l1.
Proof.
  split.
  - unfold applyFilters.
    destruct (0 <? minRating a)%float, (0 <? minReviews a)%float, (0 <? maxPrice a)%float;
      rewrite ?filter_app; reflexivity.
  - apply applyFilters_passing, Forall_forall.
    intros it Hin. apply elem_of_applyFilters in Hin. tauto.
Qed.

Lemma num_num v d : num (JNumber (num v d)) d = num v d.
Proof.
  unfold num, Number_isFinite. cbn [Number].
  destruct (is_finite (Number v)) eqn:E; [rewrite E; reflexivity|].
  destruct (is_finite d); reflexivity.
Qed.

(** X12: repricing is idempotent: a listing that has been through line 91
    once is not changed by going through it again, whatever [landed_price]
    it came with. *)
Theorem repricing_idempotent it : relanded (relanded it) = relanded it.
Proof.
  unfold relanded, withLanded.
  cbn [source title seller rating reviews variant price shipping estimated_tax
       landed_price eta_days listing_url].
  rewrite num_num. reflexivity.
Qed.

(** *** Merging *)

(** X13: what the sources contribute reaches the ranking: every listing the
    enabled Etsy adapter finds, and, whenever a Shopify key is allowed (in
    live mode too), every Shopify listing of the mock generator, is in the
    ranked list, repriced, unless a filter of the request excludes it. *)
Theorem contributions_reach_ranking env a :
  (forall found it,
     canEtsy env (allowSet (sourcesCsv a)) = true ->
     etsySearch env (q a) (limit a) = Some found ->
     it ∈ found -> passes a it -> relanded it ∈ ranked env a) /\
  (forall it,
     has (allowSet (sourcesCsv a)) "shopify_agg"
       || has (allowSet (sourcesCsv a)) "shopify_curated" = true ->
     it ∈ shopifyMock (q a) -> passes a it -> relanded it ∈ ranked env a).
Proof.
  split.
  - intros found it Hcan Hfound Hin Hp. apply elem_of_ranked. exists it.
    split; [|reflexivity]. apply elem_of_applyFilters. split; [|exact Hp].
    unfold gather. rewrite Hcan, Hfound.
    destruct (_ || _).
    + destruct (found ++ _) eqn:E; [apply app_eq_nil in E as [-> _]; inversion Hin|].
      rewrite <- E. apply elem_of_app. left. exact Hin.
    + destruct found; [inversion Hin|exact Hin].
  - intros it Hshop Hin Hp. apply elem_of_ranked. exists it.
    split; [|reflexivity]. apply elem_of_applyFilters. split; [|exact Hp].
    unfold gather. rewrite Hshop. fold (shopifyMock (q a)).
    destruct (_ ++ shopifyMock (q a)) eqn:E;
      [apply app_eq_nil in E as [_ E]; rewrite E in Hin; inversion Hin|].
    rewrite <- E. apply elem_of_app. right. exact Hin.
Qed.

Lemma contributions_reach_ranking_witness :
  relanded (etsyListing "mug one" JUndefined (JNumber 3))
    ∈ ranked (liveEnv [etsyListing "mug one" JUndefined (JNumber 3)]) (args "" 10) /\
  (forall it, it ∈ shopifyMock "mug" ->
     relanded it ∈ ranked (liveEnv [etsyListing "mug one" JUndefined (JNumber 3)]) (args "" 10)).
Proof.
  destruct (contributions_reach_ranking (liveEnv [etsyListing "mug one" JUndefined (JNumber 3)])
              (args "" 10)) as [Hetsy Hshop].
  split.
  - apply (Hetsy [etsyListing "mug one" JUndefined (JNumber 3)]).
    + reflexivity.
    + reflexivity.
    + apply list_elem_of_here.
    + repeat split; discriminate.
  - intros it Hin. apply Hshop.
    + reflexivity.
    + exact Hin.
    + repeat split; discriminate.
Defined.

(** *** Parameters *)

Lemma StringToNumber_blank s : trim s = EmptyString -> StringToNumber s = 0%float.
Proof. unfold StringToNumber. intros ->. reflexivity. Qed.

(** X14: an empty or blank [limit] parameter is not a missing one: it is
    read as the number 0 and the request is served with limit 1, whereas a
    request without the parameter is served with limit 10. *)
Theorem blank_limit_is_one qry :
  (forall s, query_limit qry = JString s -> trim s = EmptyString ->
             limit (parseQuery qry) = 1%float) /\
  (query_limit qry = JUndefined -> limit (parseQuery qry) = 10%float).
Proof.
  split.
  - intros s Hl Hs. cbn [parseQuery limit]. rewrite Hl. unfold num. cbn [Number].
    rewrite (StringToNumber_blank s Hs). reflexivity.
  - intros Hl. cbn [parseQuery limit]. rewrite Hl. reflexivity.
Qed.

Lemma blank_limit_is_one_witness :
  limit (parseQuery (query (JString "mug") (JString "  ") JUndefined)) = 1%float.
Proof.
  apply (blank_limit_is_one (query (JString "mug") (JString "  ") JUndefined)) with (s := "  "%string);
    reflexivity.
Defined.

Lemma trimStart_head s : headTrimmed (trimStart s) = true.
Proof.
  induction s as [|c s IH]; [reflexivity|].
  cbn [trimStart]. destruct (isWhiteSpace c) eqn:E; [exact IH|].
  cbn [headTrimmed]. rewrite E. reflexivity.
Qed.

Lemma trimStart_fixed s : headTrimmed s = true -> trimStart s = s.
Proof.
  destruct s as [|c s]; [reflexivity|]. cbn [headTrimmed trimStart].
  intros H%negb_true_iff. rewrite H. reflexivity.
Qed.

Lemma trimEnd_head s : headTrimmed s = true -> headTrimmed (trimEnd s) = true.
Proof.
  destruct s as [|c s]; [reflexivity|]. cbn [headTrimmed trimEnd]. intros H.
  destruct (trimEnd s); [|exact H].
  apply negb_true_iff in H. rewrite H. cbn [headTrimmed]. rewrite H. reflexivity.
Qed.

Lemma trimEnd_idem s : trimEnd (trimEnd s) = trimEnd s.
Proof.
  induction s as [|c s IH]; [reflexivity|].
  cbn [trimEnd]. destruct (trimEnd s) as [|c' t] eqn:E.
  - destruct (isWhiteSpace c) eqn:Ec; [reflexivity|]. cbn [trimEnd]. rewrite Ec. reflexivity.
  - cbn [trimEnd]. cbn [trimEnd] in IH. rewrite IH. reflexivity.
Qed.

Lemma trim_idem s : trim (trim s) = trim s.
Proof.
  unfold trim.
  rewrite (trimStart_fixed (trimEnd (trimStart s)))
    by (apply trimEnd_head, trimStart_head).
  apply trimEnd_idem.
Qed.

(** X24: white space around [q] is ignored: a request is answered like the
    request whose [q] is trimmed, and the query the engine works on is
    already trimmed. *)
Theorem query_is_trimmed env qry s :
  search env (withQ qry (JString s)) = search env (withQ qry (JString (trim s))) /\
  trim (q (parseQuery qry)) = q (parseQuery qry).
Proof.
  split.
  - unfold search, parseQuery, withQ, str. cbn [query_q query_zip query_limit
      query_minRating query_minReviews query_maxPrice query_sources].
    rewrite trim_idem. reflexivity.
  - cbn [parseQuery q]. unfold str. destruct (query_q qry) as [| | |t]; try reflexivity.
    destruct (nonEmpty (trim t)); [apply trim_idem|reflexivity].
Qed.

(** X25: no [NaN] and no [Infinity] reaches the engine: whatever the
    parameters of a request are, the rating, review and price bounds and the
    limit of the parsed request are finite numbers. *)
Theorem parsed_numbers_finite qry :
  is_finite (minRating (parseQuery qry)) = true /\
  is_finite (minReviews (parseQuery qry)) = true /\
  is_finite (maxPrice (parseQuery qry)) = true /\
  is_finite (limit (parseQuery qry)) = true.
Proof.
  repeat split; try (apply num_finite; reflexivity).
  apply parsed_limit.
Qed.

(** *** The allow-list of sources *)

Lemma split_not_nil sep s : split sep s <> [].
Proof.
  destruct s as [|c s]; cbn [split]; [discriminate|].
  destruct (Ascii.eqb c sep); [discriminate|]. destruct (split sep s); discriminate.
Qed.

Lemma split_app sep a b :
  split sep (a +:+ String sep b) = split sep a ++ split sep b.
Proof.
  induction a as [|c a IH].
  - change (EmptyString +:+ String sep b) with (String sep b).
    cbn [split app]. rewrite Ascii.eqb_refl. reflexivity.
  - change (String c a +:+ String sep b) with (String c (a +:+ String sep b)).
    cbn [split]. rewrite IH.
    destruct (Ascii.eqb c sep); [reflexivity|].
    pose proof (split_not_nil sep a). destruct (split sep a); [contradiction|reflexivity].
Qed.

Lemma allowEntries_app l1 l2 : allowEntries (l1 ++ l2) = allowEntries l1 ∪ allowEntries l2.
Proof. unfold allowEntries. rewrite map_app, filter_app, list_to_set_app_L. reflexivity. Qed.

Lemma allowSet_entries csv :
  nonEmpty csv = true -> allowSet csv = allowEntries (split "," csv).
Proof. unfold allowSet. intros ->. reflexivity. Qed.

Lemma nonEmpty_app a c b : nonEmpty (a +:+ String c b) = true.
Proof. destruct a; reflexivity. Qed.

(** X15: the allow-list is a set of keys: the order of the comma-separated
    entries of [sources] does not matter, and repeating the entries changes
    nothing. *)
Theorem allow_list_order_insensitive a b :
  allowSet (a +:+ String "," b) = allowSet (b +:+ String "," a) /\
  (nonEmpty a = true -> allowSet (a +:+ String "," a) = allowSet a).
Proof.
  split.
  - rewrite !allowSet_entries by apply nonEmpty_app.
    rewrite !split_app, !allowEntries_app. apply (comm_L (∪)).
  - intros Ha. rewrite !allowSet_entries by (apply nonEmpty_app || assumption).
    rewrite split_app, allowEntries_app. apply (idemp_L (∪)).
Qed.

Lemma lowerChar_white c : isWhiteSpace (lowerChar c) = isWhiteSpace c.
Proof. destruct c as [[] [] [] [] [] [] [] []]; reflexivity. Qed.

Lemma lowerChar_idem c : lowerChar (lowerChar c) = lowerChar c.
Proof. destruct c as [[] [] [] [] [] [] [] []]; reflexivity. Qed.

Lemma lowerChar_comma c : Ascii.eqb (lowerChar c) "," = Ascii.eqb c ",".
Proof. destruct c as [[] [] [] [] [] [] [] []]; reflexivity. Qed.

Lemma toLowerCase_idem s : toLowerCase (toLowerCase s) = toLowerCase s.
Proof.
  induction s as [|c s IH]; [reflexivity|].
  cbn [toLowerCase]. rewrite lowerChar_idem, IH. reflexivity.
Qed.

Lemma toLowerCase_trimStart s : trimStart (toLowerCase s) = toLowerCase (trimStart s).
Proof.
  induction s as [|c s IH]; [reflexivity|].
  cbn [toLowerCase trimStart]. rewrite lowerChar_white.
  destruct (isWhiteSpace c); [exact IH|reflexivity].
Qed.

Lemma toLowerCase_trimEnd s : trimEnd (toLowerCase s) = toLowerCase (trimEnd s).
Proof.
  induction s as [|c s IH]; [reflexivity|].
  cbn [toLowerCase trimEnd]. rewrite IH, lowerChar_white.
  destruct (trimEnd s); cbn [toLowerCase]; [destruct (isWhiteSpace c)|]; reflexivity.
Qed.

Lemma toLowerCase_trim s : trim (toLowerCase s) = toLowerCase (trim s).
Proof. unfold trim. rewrite toLowerCase_trimStart, toLowerCase_trimEnd. reflexivity. Qed.

Lemma toLowerCase_split s : split "," (toLowerCase s) = map toLowerCase (split "," s).
Proof.
  induction s as [|c s IH]; [reflexivity|].
  cbn [toLowerCase split]. rewrite lowerChar_comma, IH.
  destruct (Ascii.eqb c ","); [reflexivity|].
  destruct (split "," s); reflexivity.
Qed.

Lemma allowEntries_lower l : allowEntries (map toLowerCase l) = allowEntries l.
Proof.
  unfold allowEntries. rewrite map_map. do 2 f_equal.
  apply map_ext. intros s. rewrite toLowerCase_trim. apply toLowerCase_idem.
Qed.

Lemma allowSet_lower csv : allowSet (toLowerCase csv) = allowSet csv.
Proof.
  destruct csv as [|c csv]; [reflexivity|].
  rewrite (allowSet_entries (String c csv)) by reflexivity.
  rewrite (allowSet_entries (toLowerCase (String c csv))) by reflexivity.
  rewrite toLowerCase_split. apply allowEntries_lower.
Qed.

(** X16: the source keys are matched without regard to case: two requests
    that differ only in the case of the letters of [sources] are answered
    alike. *)
Theorem sources_case_insensitive env a a' :
  q a' = q a -> minRating a' = minRating a -> minReviews a' = minReviews a ->
  maxPrice a' = maxPrice a -> limit a' = limit a ->
  toLowerCase (sourcesCsv a') = toLowerCase (sourcesCsv a) ->
  allowSet (sourcesCsv a') = allowSet (sourcesCsv a) /\
  searchAllSources env a' = searchAllSources env a.
Proof.
  intros Hq Hr Hv Hp Hl Hs.
  assert (Hallow : allowSet (sourcesCsv a') = allowSet (sourcesCsv a))
    by (rewrite <- (allowSet_lower (sourcesCsv a')), Hs; apply allowSet_lower).
  split; [exact Hallow|].
  unfold searchAllSources, ranked, gather, applyFilters.
  rewrite Hallow, Hq, Hr, Hv, Hp, Hl. reflexivity.
Qed.

Lemma sources_case_insensitive_witness :
  searchAllSources mockEnv (args "Shopify_AGG" 10) = searchAllSources mockEnv (args "shopify_agg" 10).
Proof. apply sources_case_insensitive; reflexivity. Defined.

End EngineExtras.

(** ** Further properties of the OAuth helper *)

Module OAuthExtras.
Import JS OAuthEtsy OAuthScenarios OAuthFacts ExtraNotions.

#[local] Ltac Zify.zify_post_hook ::= Z.to_euclidean_division_equations.

(** *** [b64url] *)

Lemma stripPadding_digit n s :
  (n < 64)%N -> stripPadding (String (urlSafeDigit n) s) = String (urlSafeDigit n) (stripPadding s).
Proof.
  intros Hn. destruct (urlSafeDigit_ok n Hn) as [_ He].
  cbn [stripPadding]. rewrite He. destruct (stripPadding s); reflexivity.
Qed.

(** The arithmetic of the digits of a group of bytes. *)
Lemma digit0_bound x : (x < 256 -> x / 4 < 64)%N.
Proof. lia. Qed.
Lemma digit1_last_bound x : (x mod 4 * 16 < 64)%N.
Proof. lia. Qed.
Lemma digit1_bound x y : (y < 256 -> x mod 4 * 16 + y / 16 < 64)%N.
Proof. lia. Qed.
Lemma digit2_last_bound y : (y mod 16 * 4 < 64)%N.
Proof. lia. Qed.
Lemma digit2_bound y z : (z < 256 -> y mod 16 * 4 + z / 64 < 64)%N.
Proof. lia. Qed.
Lemma digit3_bound z : (z mod 64 < 64)%N.
Proof. lia. Qed.

Lemma byte0_last x : ((x / 4) * 4 + (x mod 4 * 16) / 16 = x)%N.
Proof. lia. Qed.
Lemma byte0_value x y : (y < 256 -> (x / 4) * 4 + (x mod 4 * 16 + y / 16) / 16 = x)%N.
Proof. lia. Qed.
Lemma byte1_last x y :
  (y < 256 -> (x mod 4 * 16 + y / 16) mod 16 * 16 + (y mod 16 * 4) / 4 = y)%N.
Proof. lia. Qed.
Lemma byte1_value x y z :
  (y < 256 -> z < 256 ->
   (x mod 4 * 16 + y / 16) mod 16 * 16 + (y mod 16 * 4 + z / 64) / 4 = y)%N.
Proof. lia. Qed.
Lemma byte2_value y z :
  (z < 256 -> (y mod 16 * 4 + z / 64) mod 4 * 64 + z mod 64 = z)%N.
Proof. lia. Qed.

Lemma digit_bounds a b c :
  let x := Byte.to_N a in
  let y := Byte.to_N b in
  let z := Byte.to_N c in
  (x / 4 < 64 /\ x mod 4 * 16 < 64 /\ x mod 4 * 16 + y / 16 < 64 /\
   y mod 16 * 4 < 64 /\ y mod 16 * 4 + z / 64 < 64 /\ z mod 64 < 64)%N.
Proof.
  intros x y z.
  pose proof (byte_bound a). pose proof (byte_bound b). pose proof (byte_bound c).
  auto 10 using digit0_bound, digit1_last_bound, digit1_bound, digit2_last_bound,
    digit2_bound, digit3_bound.
Qed.

Lemma digit_values a b c :
  let x := Byte.to_N a in
  let y := Byte.to_N b in
  let z := Byte.to_N c in
  ((x / 4) * 4 + (x mod 4 * 16) / 16 = x /\
   (x / 4) * 4 + (x mod 4 * 16 + y / 16) / 16 = x /\
   (x mod 4 * 16 + y / 16) mod 16 * 16 + (y mod 16 * 4) / 4 = y /\
   (x mod 4 * 16 + y / 16) mod 16 * 16 + (y mod 16 * 4 + z / 64) / 4 = y /\
   (y mod 16 * 4 + z / 64) mod 4 * 64 + z mod 64 = z)%N.
Proof.
  intros x y z.
  pose proof (byte_bound a). pose proof (byte_bound b). pose proof (byte_bound c).
  auto 10 using byte0_last, byte0_value, byte1_last, byte1_value, byte2_value.
Qed.

Lemma b64url_unpadded buf : b64url buf = unpadded buf.
Proof.
  unfold b64url. revert buf.
  refine (fix go (buf : list byte) : stripPadding (urlSafe (base64 buf)) = unpadded buf :=
            match buf with
            | [] => _
            | [a] => _
            | [a; b] => _
            | a :: b :: c :: rest => _
            end).
  - reflexivity.
  - destruct (digit_bounds a a a) as (H0 & H1 & _).
    cbn [base64 urlSafe unpadded].
    fold (urlSafeDigit (Byte.to_N a / 4)). fold (urlSafeDigit (Byte.to_N a mod 4 * 16)).
    rewrite !stripPadding_digit by assumption. reflexivity.
  - destruct (digit_bounds a b b) as (H0 & _ & H1 & H2 & _).
    cbn [base64 urlSafe unpadded].
    fold (urlSafeDigit (Byte.to_N a / 4)).
    fold (urlSafeDigit (Byte.to_N a mod 4 * 16 + Byte.to_N b / 16)).
    fold (urlSafeDigit (Byte.to_N b mod 16 * 4)).
    rewrite !stripPadding_digit by assumption. reflexivity.
  - destruct (digit_bounds a b c) as (H0 & _ & H1 & _ & H2 & H3).
    cbn [base64 urlSafe unpadded].
    fold (urlSafeDigit (Byte.to_N a / 4)).
    fold (urlSafeDigit (Byte.to_N a mod 4 * 16 + Byte.to_N b / 16)).
    fold (urlSafeDigit (Byte.to_N b mod 16 * 4 + Byte.to_N c / 64)).
    fold (urlSafeDigit (Byte.to_N c mod 64)).
    rewrite !stripPadding_digit by assumption. rewrite (go rest). reflexivity.
Qed.

Lemma unpadded_length : forall buf,
  String.length (unpadded buf) = ((4 * length buf + 2) / 3)%nat.
Proof.
  refine (fix go (buf : list byte) :
            String.length (unpadded buf) = ((4 * length buf + 2) / 3)%nat :=
            match buf with
            | [] => _
            | [a] => _
            | [a; b] => _
            | a :: b :: c :: rest => _
            end); try reflexivity.
  cbn [unpadded String.length length]. rewrite (go rest).
  replace (4 * S (S (S (length rest))) + 2)%nat with ((4 * length rest + 2) + 4 * 3)%nat by lia.
  rewrite Nat.div_add by lia. lia.
Qed.

(** X17: [b64url] of [n] bytes is a text of [(4n + 2) / 3] letters, digits,
    [-] and [_]: 22 characters for the 16 bytes of a state and 43 characters
    for the 32 bytes of a code verifier. *)
Theorem b64url_length buf :
  String.length (b64url buf) = ((4 * length buf + 2) / 3)%nat /\
  isUrlSafe (b64url buf) = true /\
  (length buf = 16%nat -> String.length (b64url buf) = 22%nat) /\
  (length buf = 32%nat -> String.length (b64url buf) = 43%nat).
Proof.
  assert (Hlen : String.length (b64url buf) = ((4 * length buf + 2) / 3)%nat)
    by (rewrite b64url_unpadded; apply unpadded_length).
  split; [exact Hlen|]. split; [apply b64url_url_safe|].
  split; intros Hn; rewrite Hlen, Hn; reflexivity.
Qed.

Lemma digitValue_digit n : (n < 64)%N -> digitValue (urlSafeDigit n) = n.
Proof.
  intros Hn.
  assert (Hall : forallb (fun k => N.eqb (digitValue (urlSafeDigit (N.of_nat k))) (N.of_nat k))
                         (seq 0 64) = true) by (vm_compute; reflexivity).
  rewrite forallb_forall in Hall.
  assert (Hin : In (N.to_nat n) (seq 0 64)) by (apply in_seq; lia).
  apply Hall in Hin. rewrite N2Nat.id in Hin. apply N.eqb_eq, Hin.
Qed.

Lemma byteOf_to_N a : byteOf (Byte.to_N a) = a.
Proof. unfold byteOf. rewrite Byte.of_to_N. reflexivity. Qed.

Lemma decode_unpadded : forall buf, decode (unpadded buf) = buf.
Proof.
  refine (fix go (buf : list byte) : decode (unpadded buf) = buf :=
            match buf with
            | [] => _
            | [a] => _
            | [a; b] => _
            | a :: b :: c :: rest => _
            end).
  - reflexivity.
  - destruct (digit_bounds a a a) as (H0 & H1 & _).
    destruct (digit_values a a a) as (V0 & _).
    cbn [unpadded decode]. rewrite !digitValue_digit by assumption.
    rewrite V0, byteOf_to_N. reflexivity.
  - destruct (digit_bounds a b b) as (H0 & _ & H1 & H2 & _).
    destruct (digit_values a b b) as (_ & V0 & V1 & _).
    cbn [unpadded decode]. rewrite !digitValue_digit by assumption.
    rewrite V0, V1, !byteOf_to_N. reflexivity.
  - destruct (digit_bounds a b c) as (H0 & _ & H1 & _ & H2 & H3).
    destruct (digit_values a b c) as (_ & V0 & _ & V1 & V2).
    cbn [unpadded decode]. rewrite !digitValue_digit by assumption.
    rewrite V0, V1, V2, !byteOf_to_N, (go rest). reflexivity.
Qed.

(** X18: [b64url] loses nothing: the bytes can be read back from the text,
    so different byte strings (different random states or verifiers) never
    get the same text. *)
Theorem b64url_round_trip buf :
  decode (b64url buf) = buf /\
  (forall buf', b64url buf' = b64url buf -> buf' = buf).
Proof.
  split; [rewrite b64url_unpadded; apply decode_unpadded|].
  intros buf' Heq. apply (f_equal decode) in Heq.
  rewrite !b64url_unpadded, !decode_unpadded in Heq. exact Heq.
Qed.

(** *** The query string *)

Lemma hexDigit_form n : (n < 16)%N -> formChar (hexDigit n) = true.
Proof.
  intros Hn.
  assert (Hall : forallb (fun k => formChar (hexDigit (N.of_nat k))) (seq 0 16) = true)
    by (vm_compute; reflexivity).
  rewrite forallb_forall in Hall.
  assert (Hin : In (N.to_nat n) (seq 0 16)) by (apply in_seq; lia).
  apply Hall in Hin. rewrite N2Nat.id in Hin. exact Hin.
Qed.

Lemma percent_form n : (n < 256)%N -> allChars formChar (percent n) = true.
Proof.
  intros Hn. unfold percent. cbn [allChars].
  rewrite !hexDigit_form by lia. reflexivity.
Qed.

Lemma allChars_app p s1 s2 :
  allChars p (s1 +:+ s2) = allChars p s1 && allChars p s2.
Proof.
  induction s1 as [|c s1 IH]; [reflexivity|].
  change (String c s1 +:+ s2) with (String c (s1 +:+ s2)).
  cbn [allChars]. rewrite IH, andb_assoc. reflexivity.
Qed.

Lemma formEncodeChar_form c : allChars formChar (formEncodeChar c) = true.
Proof.
  unfold formEncodeChar.
  pose proof (N_ascii_bounded c) as Hc.
  destruct (_ || _ || _ || _ || _ || _ || _)%N eqn:E.
  - cbn [allChars]. unfold formChar. rewrite E. reflexivity.
  - destruct (N_of_ascii c =? 32)%N; [reflexivity|].
    destruct (N_of_ascii c <? 128)%N; [apply percent_form; assumption|].
    rewrite allChars_app, !percent_form by lia. reflexivity.
Qed.

(** X19: a value cannot break out of its place in a query string: the form
    encoding of any text consists of letters, digits and the characters
    [* - . _ + %] only, so it holds no [&], [=], [#] or space, whatever the
    client id, the host header or the code contain. *)
Theorem form_encoding_is_inert s :
  allChars formChar (formEncode s) = true /\
  includes (formEncode s) "&" = false /\ includes (formEncode s) "=" = false.
Proof.
  assert (Hall : allChars formChar (formEncode s) = true).
  { induction s as [|c s IH]; [reflexivity|].
    cbn [formEncode]. rewrite allChars_app, formEncodeChar_form, IH. reflexivity. }
  split; [exact Hall|].
  revert Hall. generalize (formEncode s). intros t.
  induction t as [|c t IH]; [split; reflexivity|].
  cbn [allChars]. intros [Hc Ht]%andb_true_iff. destruct (IH Ht) as [IH1 IH2].
  cbn [includes String.prefix]. rewrite IH1, IH2.
  split.
  - destruct (ascii_dec "&" c) as [<-|_]; [discriminate Hc|reflexivity].
  - destruct (ascii_dec "=" c) as [<-|_]; [discriminate Hc|reflexivity].
Qed.

(** *** From the start to the callback *)

Lemma unpadded_nonempty buf : buf <> [] -> nonEmpty (unpadded buf) = true.
Proof. destruct buf as [|a [|b [|c rest]]]; [contradiction|reflexivity..]. Qed.

(** X20: the verifier issued at the start is the one sent in the exchange: a
    callback with a code and the state of a start reaches the token endpoint
    with a form body that carries [grant_type=authorization_code], the client
    id, the redirect URI, the code and, as it is, the code verifier the
    start stored, and its answer is the answer of the endpoint. *)
Theorem issued_verifier_is_exchanged sha256 post env host r16 r32 now st code client_id :
  ETSY_API_KEY env = Some client_id -> nonEmpty client_id = true ->
  r32 <> [] -> nonEmpty code = true ->
  tokenRequest env host code (b64url r32) =
    "grant_type=authorization_code&client_id=" +:+ formEncode client_id
    +:+ "&redirect_uri=" +:+ formEncode (redirectUri env host)
    +:+ "&code=" +:+ formEncode code +:+ "&code_verifier=" +:+ b64url r32 /\
  (callback post env host (Some code) (Some (b64url r16))
            (start sha256 env host r16 r32 now st).1).2 =
    match post TOKEN_URL (tokenRequest env host code (b64url r32)) with
    | Some data => TokenDump data
    | None => ExchangeFailed
    end.
Proof.
  intros Hk Hne Hr Hc. split.
  - unfold tokenRequest. rewrite Hk. cbn [default serialize].
    rewrite (formEncode_url_safe (b64url r32)) by apply b64url_url_safe.
    reflexivity.
  - rewrite (start_redirects _ _ _ _ _ _ _ _ Hk Hne). unfold callback.
    cbn [fst stateStore]. rewrite lookup_insert_eq, Hc.
    rewrite (b64url_unpadded r32), (unpadded_nonempty r32 Hr). cbn [andb].
    destruct (post _ _); reflexivity.
Qed.

Lemma issued_verifier_is_exchanged_witness :
  (callback acceptingUpstream sampleEnv None (Some "code"%string) (Some (b64url (zeros 16)))
            (start sampleDigest sampleEnv None (zeros 16) (zeros 32) 0 emptyStore).1).2
  = TokenDump sampleTokens.
Proof.
  destruct (issued_verifier_is_exchanged sampleDigest acceptingUpstream sampleEnv None
              (zeros 16) (zeros 32) 0 emptyStore "code" "key") as [_ H].
  - reflexivity.
  - reflexivity.
  - discriminate.
  - reflexivity.
  - exact H.
Defined.

(** X21: a start touches only its own state: the verifiers of all other
    states stay as they are, the pending timers stay pending with one more
    behind them, and without a client id nothing changes at all. *)
Theorem start_touches_own_state_only sha256 env host r16 r32 now st :
  (forall s, s <> b64url r16 ->
     stateStore (start sha256 env host r16 r32 now st).1 !! s = stateStore st !! s) /\
  timers st `prefix_of` timers (start sha256 env host r16 r32 now st).1 /\
  ((start sha256 env host r16 r32 now st).2 = MissingApiKey ->
   (start sha256 env host r16 r32 now st).1 = st).
Proof.
  unfold start. destruct (ETSY_API_KEY env) as [cid|]; [|repeat split; reflexivity].
  destruct (nonEmpty cid); [|repeat split; reflexivity].
  cbn [fst snd stateStore timers]. split; [|split].
  - intros s Hne. apply lookup_insert_ne. congruence.
  - apply prefix_app_r. reflexivity.
  - discriminate.
Qed.

(** *** Expiry *)

Lemma lookup_after_other_deletes (due : list (Z * string)) (m : gmap string string) s :
  s ∉ due.*2 -> foldr (fun t m => delete t.2 m) m due !! s = m !! s.
Proof.
  induction due as [|[d s'] due IH]; cbn [fmap list_fmap foldr snd]; [reflexivity|].
  intros Hnot. apply not_elem_of_cons in Hnot as [Hne Hnot].
  rewrite lookup_delete_ne by congruence. apply IH, Hnot.
Qed.

Lemma lookup_after_deletes_Some (due : list (Z * string)) (m : gmap string string) s v :
  foldr (fun t m => delete t.2 m) m due !! s = Some v -> m !! s = Some v /\ s ∉ due.*2.
Proof.
  intros H. destruct (decide (s ∈ due.*2)) as [Hin|Hnot].
  - rewrite (lookup_after_deletes due m s Hin) in H. discriminate.
  - rewrite (lookup_after_other_deletes due m s Hnot) in H. auto.
Qed.

(** X22: a state lives until its timer runs: when the timers due before
    [now + 10 minutes] have run, the state of a start at [now] still leads to
    its verifier, provided no timer of an earlier start with the same state
    was due. *)
Theorem issued_state_lives_until_expiry sha256 env host r16 r32 now st t client_id :
  ETSY_API_KEY env = Some client_id -> nonEmpty client_id = true ->
  (forall due, (due, b64url r16) ∈ timers st -> t < due) ->
  t < now + TTL_MS ->
  storedVerifier (elapse t (start sha256 env host r16 r32 now st).1) (Some (b64url r16))
    = Some (b64url r32).
Proof.
  intros Hk Hne Hold Ht. rewrite (start_redirects _ _ _ _ _ _ _ _ Hk Hne).
  cbn [fst storedVerifier elapse stateStore timers].
  rewrite lookup_after_other_deletes; [apply lookup_insert_eq|].
  intros ([due s] & Hs & Hin)%list_elem_of_fmap. cbn in Hs. subst s.
  apply list_elem_of_filter in Hin as [Hdue Hin]. cbn in Hdue.
  apply elem_of_app in Hin as [Hin|Hin].
  - specialize (Hold due Hin). lia.
  - apply list_elem_of_singleton in Hin. injection Hin as ->. lia.
Qed.

Lemma issued_state_lives_until_expiry_witness :
  storedVerifier (elapse 599999 startedStore) (Some startedState) = Some (b64url (zeros 32)).
Proof.
  apply (issued_state_lives_until_expiry sampleDigest sampleEnv None (zeros 16) (zeros 32)
           0 emptyStore 599999 "key").
  - reflexivity.
  - reflexivity.
  - intros due Hin. inversion Hin.
  - reflexivity.
Defined.

(** X23: no state is left behind: if every state of the store has a pending
    timer, this is still so after a start, after a callback and after timers
    have run, so every state is deleted once all timers have run. *)
Theorem every_state_has_a_timer sha256 post env host r16 r32 code state now st :
  timersCover st ->
  timersCover (start sha256 env host r16 r32 now st).1 /\
  timersCover (callback post env host code state st).1 /\
  timersCover (elapse now st) /\
  (forall t, Forall (fun d => d.1 <= t) (timers st) -> stateStore (elapse t st) = ∅).
Proof.
  intros Hcov. split; [|split; [|split]].
  - unfold start. destruct (ETSY_API_KEY env) as [cid|]; [|exact Hcov].
    destruct (nonEmpty cid); [|exact Hcov].
    intros s. cbn [fst stateStore timers]. rewrite fmap_app, elem_of_app.
    destruct (decide (s = b64url r16)) as [->|Hne].
    + intros _. right. apply list_elem_of_here.
    + rewrite lookup_insert_ne by congruence. intros H. left. apply Hcov, H.
  - unfold callback. fold (storedVerifier st state).
    destruct code as [c|], (storedVerifier st state) as [v|]; try exact Hcov.
    destruct (nonEmpty c && nonEmpty v); [|exact Hcov].
    destruct (post _ _); exact Hcov.
  - intros s [v Hv]. cbn [elapse stateStore timers] in *.
    apply lookup_after_deletes_Some in Hv as [Hv Hnot].
    specialize (Hcov s (ex_intro _ v Hv)).
    apply list_elem_of_fmap in Hcov as ([d s'] & Hs & Hin). cbn in Hs. subst s'.
    apply list_elem_of_fmap. exists (d, s). split; [reflexivity|].
    apply list_elem_of_filter. split; [|exact Hin]. cbn.
    destruct (decide (d <= now)) as [Hdue|]; [|lia].
    exfalso. apply Hnot. apply list_elem_of_fmap. exists (d, s). split; [reflexivity|].
    apply list_elem_of_filter. split; [exact Hdue|exact Hin].
  - intros t Hall. apply map_eq. intros s. rewrite lookup_empty.
    destruct (stateStore (elapse t st) !! s) as [v|] eqn:E; [|reflexivity].
    exfalso. cbn [elapse stateStore] in E.
    apply lookup_after_deletes_Some in E as [Hv Hnot].
    specialize (Hcov s (ex_intro _ v Hv)).
    apply list_elem_of_fmap in Hcov as ([d s'] & Hs & Hin). cbn in Hs. subst s'.
    apply Hnot. apply list_elem_of_fmap. exists (d, s). split; [reflexivity|].
    apply list_elem_of_filter. split; [|exact Hin].
    rewrite Forall_forall in Hall. apply (Hall (d, s) Hin).
Qed.

Lemma every_state_has_a_timer_witness :
  timersCover startedStore /\ stateStore (elapse 600000 startedStore) = ∅.
Proof.
  destruct (every_state_has_a_timer sampleDigest acceptingUpstream sampleEnv None
              (zeros 16) (zeros 32) None None 0 emptyStore) as (Hstart & _).
  - intros s [v Hv]. unfold emptyStore in Hv. cbn [stateStore] in Hv.
    rewrite lookup_empty in Hv. discriminate.
  - split; [exact Hstart|].
    destruct (every_state_has_a_timer sampleDigest acceptingUpstream sampleEnv None
                (zeros 16) (zeros 32) None None 0 startedStore Hstart) as (_ & _ & _ & Hall).
    apply Hall. repeat constructor. cbn. unfold TTL_MS. lia.
Defined.

End OAuthExtras.
